(** * The ARC renderer bridge ([src/app.js], class [ArcInit])

    A shallow embedding of the bridge object that lives in the application
    window: the bootstrap handler, the promise chain that creates the
    application element, the command and request-action routers and the
    remote-call responders.

    JavaScript runs one event at a time and drains the micro-task queue
    before the next event is taken.  An event is therefore one atomic
    transition of the model: the synchronous body of the handler followed by
    every promise reaction that has become runnable.  A promise that waits
    for the outside world (a [<link rel=import>] load, [Polymer.importHref],
    [ThemeManager.loadTheme]) is a pending chain whose settlement is an event
    of its own. *)

From Stdlib Require Import ZArith String List Bool Lia.
From stdpp Require Import base gmap strings list pretty.

Set Warnings "-register-all".
Open Scope string_scope.
Open Scope list_scope.

(** ** JavaScript values *)

Module Js.

(** The values that cross the IPC boundary.  Numbers are the integers the
    protocol uses (indexes, call and tab identifiers); an object is a finite
    map from property names to values. *)
Inductive JsVal : Type :=
| VUndefined
| VNull
| VBool (b : bool)
| VNum (n : Z)
| VStr (s : string)
| VObj (o : gmap string JsVal).

(** [!v] *)
Definition falsy (v : JsVal) : bool :=
  match v with
  | VUndefined | VNull => true
  | VBool b => negb b
  | VNum n => Z.eqb n 0
  | VStr s => String.eqb s ""
  | VObj _ => false
  end.

(** [o.k] on an object: a missing property reads as [undefined]. *)
Definition prop (o : gmap string JsVal) (k : string) : JsVal :=
  default VUndefined (o !! k).

(** [String(v)], as [+] with a string and a property key apply it. *)
Definition to_string (v : JsVal) : string :=
  match v with
  | VUndefined => "undefined"
  | VNull => "null"
  | VBool true => "true"
  | VBool false => "false"
  | VNum n => pretty n
  | VStr s => s
  | VObj _ => "[object Object]"
  end.

(** [v === 's'] for a string literal. *)
Definition strict_eq_str (v : JsVal) (s : string) : bool :=
  match v with
  | VStr s' => String.eqb s' s
  | _ => false
  end.

(** [switch (v) { case 'name': body; break; ... default: d }]: the cases
    are tried in order with [===] and the first that matches runs. *)
Fixpoint switch {A : Type} (v : JsVal) (cases : list (string * A)) (d : A) : A :=
  match cases with
  | [] => d
  | (name, body) :: rest =>
      if strict_eq_str v name then body else switch v rest d
  end.

(** [args[i]] on the rest parameter. *)
Definition arg (args : list JsVal) (i : nat) : JsVal :=
  default VUndefined (args !! i).

(** What a handler can throw: [new Error(message)], or the engine's
    [TypeError] for a property access on [undefined] or [null] (and for a
    property write on a primitive, class bodies being strict code).  The
    [TypeError] carries the name of the property that was accessed. *)
Inductive JsError : Type :=
| Error (message : string)
| TypeError (property : string).

End Js.
Import Js.

(** ** The document *)

(** The [<link>] element built by [_importHref]. *)
Record Link : Type := mkLink {
  rel : string;
  href : JsVal;
  attributes : list (string * string)
}.

(** Methods of the application element that the bridge calls. *)
Inductive ShellCall : Type :=
| initApplication
| openSettings | openAbout | openLicense | openImport | openExport
| openSaved | openHistory | openDrivePicker | openInfoCenter | openWebUrl
| openCookieManager | openHostRules | openThemesPanel | openWorkspace
| openWebSocket
| getTabsCount
| saveOpened (opts : option (gmap string JsVal))
| newRequestTab
| sendCurrentTab
| updateRequestTab (a0 a1 : JsVal).

(** Modelled from the spec: the [arc-electron] element is not part of
    [src/app.js].  It is the state the bridge reads and writes on it: its id,
    [componentsDir], [workspace.selected], [workspace.activeRequests],
    [updateState], [hasAppUpdate], the value [getTabsCount()] returns, and
    the log of the methods that were called on it. *)
Record ArcElectron : Type := mkArcElectron {
  el_id : string;
  componentsDir : JsVal;
  selected : JsVal;
  activeRequests : gmap string JsVal;
  tabsCount : JsVal;
  updateState : option (list JsVal);
  hasAppUpdate : bool;
  invoked : list ShellCall
}.

(** [document.createElement('arc-electron')] *)
Definition createElement_arc_electron : ArcElectron :=
  {| el_id := ""; componentsDir := VUndefined; selected := VUndefined;
     activeRequests := ∅; tabsCount := VNum 0; updateState := None;
     hasAppUpdate := false; invoked := [] |}.

(** ** The bridge object and its world *)

(** Modelled from the spec: [ThemeManager] is a capability proxy outside
    [src/app.js]; the model keeps the arguments of the calls made on it. *)
Record ThemeManager : Type := mkThemeManager {
  loadTheme_calls : list JsVal;
  previewThemes_calls : list JsVal
}.

(** Modelled from the spec: [WorkspaceManager] is outside [src/app.js]; the
    model keeps the arguments of [new WorkspaceManager(index, opts)] and
    whether [observe()] was called. *)
Record WorkspaceManager : Type := mkWorkspaceManager {
  wm_index : JsVal;
  wm_opts : gmap string JsVal;
  wm_observed : bool
}.

(** Where a chain started by [initApp] is waiting. *)
Inductive Stage : Type :=
| AwaitImport      (* [_importHref(importFile)] pending *)
| AwaitPolymer     (* [Polymer.importHref('src/arc-electron.html')] pending *)
| AwaitTheme       (* [themeManager.loadTheme(themeFile)] pending *)
| Settled.

(** The receiver of a [send]: the global [ipc], or [e.sender] of the event
    being handled. *)
Inductive Port : Type := ipc | e_sender.

Record Sent : Type := mkSent {
  port : Port;
  channel : string;
  payload : list JsVal
}.

(** The handlers [listen] binds. *)
Inductive Handler : Type :=
| updateEventHandler_h
| commandHandler_h
| execRequestAction_h
| themePreviewHandler_h
| stateInfoHandler_h.

(** The fields of [this], the rest of the page the bridge touches, and the
    chains in flight (a chain is named by its position in [chains]). *)
Record World : Type := mkWorld {
  (* this *)
  created : bool;
  themeManager : ThemeManager;
  themeLoader : option ThemeManager;
  workspaceIndex : JsVal;
  initConfig : option (gmap string JsVal);
  workspaceManager : option WorkspaceManager;
  (* window *)
  ArcConfig : option (option (gmap string JsVal));   (* [window.ArcConfig] and its [initConfig] *)
  onbeforeunload : bool;
  (* document *)
  head : list Link;
  body : list ArcElectron;
  (* ipc *)
  subscriptions : list (string * Handler);
  sent : list Sent;
  (* the rest of the environment *)
  polymer_imports : list string;
  console : list string;
  chains : list Stage
}.

(** The constructor: [created] is [false]; [themeManager] is built;
    nothing assigns [themeLoader], [workspaceIndex], [initConfig] or
    [workspaceManager], which read as [undefined]. *)
Definition constructor : World :=
  {| created := false;
     themeManager := mkThemeManager [] [];
     themeLoader := None;
     workspaceIndex := VUndefined;
     initConfig := None;
     workspaceManager := None;
     ArcConfig := None;
     onbeforeunload := false;
     head := []; body := [];
     subscriptions := []; sent := [];
     polymer_imports := []; console := []; chains := [] |}.

(** ** A state and exception monad for handler bodies *)

Inductive Outcome (A : Type) : Type :=
| Ok (a : A)
| Throw (e : JsError).
Arguments Ok {A} a.
Arguments Throw {A} e.

Definition M (A : Type) : Type := World -> World * Outcome A.

Definition ret {A} (a : A) : M A := fun w => (w, Ok a).
Definition throw {A} (e : JsError) : M A := fun w => (w, Throw e).
Definition bind {A B} (c : M A) (k : A -> M B) : M B :=
  fun w => match c w with
           | (w', Ok a) => k a w'
           | (w', Throw e) => (w', Throw e)
           end.
Definition get : M World := fun w => (w, Ok w).
Definition modify (f : World -> World) : M unit := fun w => (f w, Ok tt).

Notation "'let!' x := c 'in' k" := (bind c (fun x => k))
  (at level 10, x name, c at level 100, k at level 200).
Notation "c ;;; k" := (bind c (fun _ => k))
  (at level 100, k at level 200, right associativity).

(** The world a computation leaves and what it returned. *)
Definition exec {A} (c : M A) (w : World) : World := fst (c w).
Definition outcome {A} (c : M A) (w : World) : Outcome A := snd (c w).

(** *** Field updates *)

Definition set_created (b : bool) (w : World) : World :=
  mkWorld b (themeManager w) (themeLoader w) (workspaceIndex w) (initConfig w)
    (workspaceManager w) (ArcConfig w) (onbeforeunload w) (head w) (body w)
    (subscriptions w) (sent w) (polymer_imports w) (console w) (chains w).
Definition set_themeManager (t : ThemeManager) (w : World) : World :=
  mkWorld (created w) t (themeLoader w) (workspaceIndex w) (initConfig w)
    (workspaceManager w) (ArcConfig w) (onbeforeunload w) (head w) (body w)
    (subscriptions w) (sent w) (polymer_imports w) (console w) (chains w).
Definition set_themeLoader (t : option ThemeManager) (w : World) : World :=
  mkWorld (created w) (themeManager w) t (workspaceIndex w) (initConfig w)
    (workspaceManager w) (ArcConfig w) (onbeforeunload w) (head w) (body w)
    (subscriptions w) (sent w) (polymer_imports w) (console w) (chains w).
Definition set_workspaceIndex (v : JsVal) (w : World) : World :=
  mkWorld (created w) (themeManager w) (themeLoader w) v (initConfig w)
    (workspaceManager w) (ArcConfig w) (onbeforeunload w) (head w) (body w)
    (subscriptions w) (sent w) (polymer_imports w) (console w) (chains w).
Definition set_initConfig (c : option (gmap string JsVal)) (w : World) : World :=
  mkWorld (created w) (themeManager w) (themeLoader w) (workspaceIndex w) c
    (workspaceManager w) (ArcConfig w) (onbeforeunload w) (head w) (body w)
    (subscriptions w) (sent w) (polymer_imports w) (console w) (chains w).
Definition set_workspaceManager (m : option WorkspaceManager) (w : World) : World :=
  mkWorld (created w) (themeManager w) (themeLoader w) (workspaceIndex w)
    (initConfig w) m (ArcConfig w) (onbeforeunload w) (head w) (body w)
    (subscriptions w) (sent w) (polymer_imports w) (console w) (chains w).
Definition set_ArcConfig (c : option (option (gmap string JsVal))) (w : World) : World :=
  mkWorld (created w) (themeManager w) (themeLoader w) (workspaceIndex w)
    (initConfig w) (workspaceManager w) c (onbeforeunload w) (head w) (body w)
    (subscriptions w) (sent w) (polymer_imports w) (console w) (chains w).
Definition set_onbeforeunload (b : bool) (w : World) : World :=
  mkWorld (created w) (themeManager w) (themeLoader w) (workspaceIndex w)
    (initConfig w) (workspaceManager w) (ArcConfig w) b (head w) (body w)
    (subscriptions w) (sent w) (polymer_imports w) (console w) (chains w).
Definition set_head (h : list Link) (w : World) : World :=
  mkWorld (created w) (themeManager w) (themeLoader w) (workspaceIndex w)
    (initConfig w) (workspaceManager w) (ArcConfig w) (onbeforeunload w) h (body w)
    (subscriptions w) (sent w) (polymer_imports w) (console w) (chains w).
Definition set_body (b : list ArcElectron) (w : World) : World :=
  mkWorld (created w) (themeManager w) (themeLoader w) (workspaceIndex w)
    (initConfig w) (workspaceManager w) (ArcConfig w) (onbeforeunload w) (head w) b
    (subscriptions w) (sent w) (polymer_imports w) (console w) (chains w).
Definition set_subscriptions (s : list (string * Handler)) (w : World) : World :=
  mkWorld (created w) (themeManager w) (themeLoader w) (workspaceIndex w)
    (initConfig w) (workspaceManager w) (ArcConfig w) (onbeforeunload w) (head w) (body w)
    s (sent w) (polymer_imports w) (console w) (chains w).
Definition set_sent (s : list Sent) (w : World) : World :=
  mkWorld (created w) (themeManager w) (themeLoader w) (workspaceIndex w)
    (initConfig w) (workspaceManager w) (ArcConfig w) (onbeforeunload w) (head w) (body w)
    (subscriptions w) s (polymer_imports w) (console w) (chains w).
Definition set_polymer_imports (p : list string) (w : World) : World :=
  mkWorld (created w) (themeManager w) (themeLoader w) (workspaceIndex w)
    (initConfig w) (workspaceManager w) (ArcConfig w) (onbeforeunload w) (head w) (body w)
    (subscriptions w) (sent w) p (console w) (chains w).
Definition set_console (c : list string) (w : World) : World :=
  mkWorld (created w) (themeManager w) (themeLoader w) (workspaceIndex w)
    (initConfig w) (workspaceManager w) (ArcConfig w) (onbeforeunload w) (head w) (body w)
    (subscriptions w) (sent w) (polymer_imports w) c (chains w).
Definition set_chains (c : list Stage) (w : World) : World :=
  mkWorld (created w) (themeManager w) (themeLoader w) (workspaceIndex w)
    (initConfig w) (workspaceManager w) (ArcConfig w) (onbeforeunload w) (head w) (body w)
    (subscriptions w) (sent w) (polymer_imports w) (console w) c.

(** ** Primitive effects *)

(** [console.log], [console.info], [console.error]: the first argument. *)
Definition log (s : string) : M unit :=
  modify (fun w => set_console (console w ++ [s]) w).

(** [p.send(channel, ...args)] *)
Definition send (p : Port) (ch : string) (args : list JsVal) : M unit :=
  modify (fun w => set_sent (sent w ++ [mkSent p ch args]) w).

(** [ipc.on(channel, handler)] *)
Definition on (ch : string) (h : Handler) : M unit :=
  modify (fun w => set_subscriptions (subscriptions w ++ [(ch, h)]) w).

Definition is_app (el : ArcElectron) : bool := String.eqb (el_id el) "app".

(** [get app()]: [document.getElementById('app')], the first element of the
    document with that id, [null] when there is none. *)
Definition app (w : World) : option ArcElectron := List.find is_app (body w).

(** A write through the reference [get app()] returned. *)
Fixpoint update_app (f : ArcElectron -> ArcElectron) (els : list ArcElectron)
  : list ArcElectron :=
  match els with
  | [] => []
  | el :: rest => if is_app el then f el :: rest else el :: update_app f rest
  end.

Definition record_call (c : ShellCall) (el : ArcElectron) : ArcElectron :=
  mkArcElectron (el_id el) (componentsDir el) (selected el) (activeRequests el)
    (tabsCount el) (updateState el) (hasAppUpdate el) (invoked el ++ [c]).
Definition set_el_id (i : string) (el : ArcElectron) : ArcElectron :=
  mkArcElectron i (componentsDir el) (selected el) (activeRequests el)
    (tabsCount el) (updateState el) (hasAppUpdate el) (invoked el).
Definition set_componentsDir (v : JsVal) (el : ArcElectron) : ArcElectron :=
  mkArcElectron (el_id el) v (selected el) (activeRequests el)
    (tabsCount el) (updateState el) (hasAppUpdate el) (invoked el).
Definition set_selected (v : JsVal) (el : ArcElectron) : ArcElectron :=
  mkArcElectron (el_id el) (componentsDir el) v (activeRequests el)
    (tabsCount el) (updateState el) (hasAppUpdate el) (invoked el).
Definition set_updateState (m : list JsVal) (el : ArcElectron) : ArcElectron :=
  mkArcElectron (el_id el) (componentsDir el) (selected el) (activeRequests el)
    (tabsCount el) (Some m) (hasAppUpdate el) (invoked el).
Definition set_hasAppUpdate (b : bool) (el : ArcElectron) : ArcElectron :=
  mkArcElectron (el_id el) (componentsDir el) (selected el) (activeRequests el)
    (tabsCount el) (updateState el) b (invoked el).

(** [app.<member>] used as a write or a call on the reference [r]: a
    [TypeError] on [null], otherwise the element is updated in place. *)
Definition on_app (r : option ArcElectron) (member : string)
    (f : ArcElectron -> ArcElectron) : M unit :=
  match r with
  | None => throw (TypeError member)
  | Some _ => modify (fun w => set_body (update_app f (body w)) w)
  end.

(** [app.method(...)] *)
Definition call (r : option ArcElectron) (member : string) (c : ShellCall) : M unit :=
  on_app r member (record_call c).

(** [this.app] *)
Definition this_app : M (option ArcElectron) := fun w => (w, Ok (app w)).

(** ** Promises *)

(** The state of a promise of the chain, as far as the chain can tell. *)
Inductive Promise : Type :=
| Resolved
| Rejected (cause : JsError)
| Pending (s : Stage).

(** The body of a [then] or [catch] callback: a throw rejects the promise
    the callback feeds. *)
Definition attempt (c : M unit) : M Promise :=
  fun w => match c w with
           | (w', Ok _) => (w', Ok Resolved)
           | (w', Throw e) => (w', Ok (Rejected e))
           end.

Definition stage_of (p : Promise) : Stage :=
  match p with
  | Pending s => s
  | Resolved | Rejected _ => Settled
  end.

(** [err.message]; for an engine [TypeError] the text V8 gives. *)
Definition message (e : JsError) : JsVal :=
  match e with
  | Error m => VStr m
  | TypeError p => VStr ("Cannot read property '" +:+ p +:+ "' of undefined")
  end.

(** ** The methods of [ArcInit] *)

(** [listen()].  The [listen]/[observe] calls on the capability proxies
    register handlers of their own and do not touch this object. *)
Definition listen : M unit :=
  modify (set_onbeforeunload true) ;;;
  on "checking-for-update" updateEventHandler_h ;;;
  on "update-available" updateEventHandler_h ;;;
  on "update-not-available" updateEventHandler_h ;;;
  on "autoupdate-error" updateEventHandler_h ;;;
  on "download-progress" updateEventHandler_h ;;;
  on "update-downloaded" updateEventHandler_h ;;;
  on "command" commandHandler_h ;;;
  on "request-action" execRequestAction_h ;;;
  on "theme-editor-preview" themePreviewHandler_h ;;;
  on "window-state-info" stateInfoHandler_h.

(** [requestState()] *)
Definition requestState : M unit := send ipc "window-state-request" [].

(** [reportFatalError(err)] *)
Definition reportFatalError (err : JsError) : M unit :=
  log (to_string (message err)) ;;;
  send ipc "fatal-error" [message err].

(** [this.initConfig.<k>] *)
Definition initConfig_prop (k : string) : M JsVal :=
  let! w := get in
  match initConfig w with
  | None => throw (TypeError k)
  | Some cfg => ret (prop cfg k)
  end.

(** The link [_importHref] builds: [rel], [href] and the two attributes. *)
Definition import_link (href : JsVal) : Link :=
  mkLink "import" href [("import-href", ""); ("async", "")].

(** [_importHref(href)]: the link is appended to the head and the promise
    waits for its [load] or [error] event. *)
Definition _importHref (href : JsVal) : M Promise :=
  modify (fun w => set_head (head w ++ [import_link href]) w) ;;;
  ret (Pending AwaitImport).

(** [_setupApp(app)], on the element that is not yet in the document. *)
Definition _setupApp (el : ArcElectron) : M ArcElectron :=
  log "Initializing ARC app" ;;;
  let! dir := initConfig_prop "appComponents" in
  ret (record_call initApplication (set_componentsDir dir el)).

(** [_createApp()], up to the first pending promise. *)
Definition _createApp : M Promise :=
  let! w := get in
  if created w then ret Resolved
  else
    let! importFile := initConfig_prop "importFile" in
    log "Importing components from " ;;;
    _importHref importFile.

(** The [catch] callback of [_createApp] (line 138), run when the link
    fires [error]: the rejection is replaced by a new error. *)
Definition createApp_catch : M Promise :=
  ret (Rejected (Error "Unable to load components import file.")).

(** The first [then] callback of [_createApp] (line 141), run when the link
    fires [load]. *)
Definition createApp_then_import : M Promise :=
  log "Importing arc-electron component" ;;;
  modify (fun w => set_polymer_imports
    (polymer_imports w ++ ["src/arc-electron.html"]) w) ;;;
  ret (Pending AwaitPolymer).

(** The error callback handed to [Polymer.importHref] (line 146). *)
Definition polymer_reject : M Promise :=
  ret (Rejected (Error "Unable to load ARC app")).

(** The second [then] callback of [_createApp] (line 151), run when
    [Polymer.importHref] succeeds. *)
Definition createApp_then_attach : M unit :=
  log "Initializing arc-electron element..." ;;;
  let el := set_el_id "app" createElement_arc_electron in
  let! el := _setupApp el in
  modify (fun w => set_body (body w ++ [el]) w) ;;;
  modify (set_created true).

(** [themeManager.loadTheme(themeFile)] *)
Definition loadTheme (themeFile : JsVal) : M unit :=
  modify (fun w => set_themeManager
    (mkThemeManager (loadTheme_calls (themeManager w) ++ [themeFile])
                    (previewThemes_calls (themeManager w))) w).

(** The [then] of [initApp] (line 114). *)
Definition initApp_then (p : Promise) : M Promise :=
  match p with
  | Resolved =>
      fun w => match (let! f := initConfig_prop "themeFile" in loadTheme f) w with
               | (w', Ok _) => (w', Ok (Pending AwaitTheme))
               | (w', Throw e) => (w', Ok (Rejected e))
               end
  | other => ret other
  end.

(** The [catch] of [initApp] (line 115). *)
Definition initApp_catch (p : Promise) : M Promise :=
  match p with
  | Rejected cause => attempt (reportFatalError cause)
  | other => ret other
  end.

(** The [then] of [_stateInfoHandler] (line 98). *)
Definition stateInfo_then (p : Promise) : M Promise :=
  match p with
  | Resolved => attempt (log "Application window is now ready.")
  | other => ret other
  end.

(** The [opts] of [initApp]: [filePath] is set when [workspacePath] is
    truthy. *)
Definition workspace_opts (workspacePath : JsVal) : gmap string JsVal :=
  if falsy workspacePath then ∅ else {[ "filePath" := workspacePath ]}.

(** [initApp()].  The reactions to an already settled promise run as
    micro-tasks after the synchronous code; nothing with an effect stands
    between the calls and the end of the handler, so they are run in place. *)
Definition initApp : M Promise :=
  log "Initializing renderer window..." ;;;
  let! workspacePath := initConfig_prop "workspacePath" in
  modify (fun w => set_workspaceManager
    (Some (mkWorkspaceManager (workspaceIndex w) (workspace_opts workspacePath) true)) w) ;;;
  let! p := _createApp in
  let! p := initApp_then p in
  initApp_catch p.

(** Lines 88 to 90: a falsy [workspaceIndex] is replaced by [0]. *)
Definition default_workspaceIndex (o : gmap string JsVal) : gmap string JsVal :=
  if falsy (prop o "workspaceIndex") then <[ "workspaceIndex" := VNum 0 ]> o else o.

(** [_stateInfoHandler(e, info)].  When [info] is a primitive that is not
    falsy, [info.workspaceIndex] reads [undefined] and the write to it
    throws in strict code. *)
Definition _stateInfoHandler (info : JsVal) : M unit :=
  let info := if falsy info then VObj ∅ else info in
  match info with
  | VObj o =>
      let initConfig := default_workspaceIndex o in
      modify (set_workspaceIndex (prop initConfig "workspaceIndex")) ;;;
      modify (fun w => match ArcConfig w with
                       | None => set_ArcConfig (Some None) w
                       | Some _ => w
                       end) ;;;
      modify (set_initConfig (Some initConfig)) ;;;
      modify (set_ArcConfig (Some (Some initConfig))) ;;;
      let! p := initApp in
      let! p := stateInfo_then p in
      modify (fun w => set_chains (chains w ++ [stage_of p]) w)
  | _ => throw (TypeError "workspaceIndex")
  end.

(** [beforeUnloadWindow()] *)
Definition beforeUnloadWindow : M unit := send ipc "window-reloading" [].

(** [updateEventHandler(sender, message)] *)
Definition updateEventHandler (msg : list JsVal) : M unit :=
  let! r := this_app in
  log "updateEventHandler" ;;;
  on_app r "updateState" (set_updateState msg) ;;;
  if strict_eq_str (arg msg 0) "update-downloaded"
  then on_app r "hasAppUpdate" (set_hasAppUpdate true)
  else ret tt.

(** [sendTabsCount(e, callId)] *)
Definition sendTabsCount (callId : JsVal) : M unit :=
  let! r := this_app in
  call r "getTabsCount" getTabsCount ;;;
  let cnt := match r with Some el => tabsCount el | None => VUndefined end in
  send e_sender "current-tabs-count" [callId; VBool false; cnt].

(** [activateTab(e, callId, tabId)] *)
Definition activateTab (callId tabId : JsVal) : M unit :=
  let! r := this_app in
  on_app r "workspace" (set_selected tabId) ;;;
  send e_sender "tab-activated" [callId; VBool false].

(** [getRequestData(e, callId, tabId)] *)
Definition getRequestData (callId tabId : JsVal) : M unit :=
  let! r := this_app in
  match r with
  | None => throw (TypeError "workspace")
  | Some el =>
      let request := prop (activeRequests el) (to_string tabId) in
      send e_sender "request-data" [callId; VBool false; request]
  end.

(** The cases of [commandHandler], in the order of the source. *)
Definition command_cases (r : option ArcElectron) (args : list JsVal)
  : list (string * M unit) :=
  [ ("show-settings", call r "openSettings" openSettings);
    ("about", call r "openAbout" openAbout);
    ("open-license", call r "openLicense" openLicense);
    ("import-data", call r "openImport" openImport);
    ("export-data", call r "openExport" openExport);
    ("open-saved", call r "openSaved" openSaved);
    ("open-history", call r "openHistory" openHistory);
    ("open-drive", call r "openDrivePicker" openDrivePicker);
    ("open-messages", call r "openInfoCenter" openInfoCenter);
    ("login-external-webservice", call r "openWebUrl" openWebUrl);
    ("open-cookie-manager", call r "openCookieManager" openCookieManager);
    ("open-hosts-editor", call r "openHostRules" openHostRules);
    ("get-tabs-count", sendTabsCount (arg args 0));
    ("activate-tab", activateTab (arg args 0) (arg args 1));
    ("get-request-data", getRequestData (arg args 0) (arg args 1));
    ("open-themes", call r "openThemesPanel" openThemesPanel);
    ("open-requests-workspace", call r "openWorkspace" openWorkspace);
    ("open-web-socket", call r "openWebSocket" openWebSocket) ].

(** [commandHandler(e, action, ...args)]: the [switch] has no [default]. *)
Definition commandHandler (action : JsVal) (args : list JsVal) : M unit :=
  log "Renderer command handled: " ;;;
  let! r := this_app in
  switch action (command_cases r args) (ret tt).

(** The cases of [execRequestAction]. *)
Definition request_action_cases (r : option ArcElectron) (args : list JsVal)
  : list (string * M unit) :=
  [ ("save", call r "saveOpened" (saveOpened (Some {[ "source" := VStr "shortcut" ]})));
    ("save-as", call r "saveOpened" (saveOpened None));
    ("new-tab", call r "newRequestTab" newRequestTab);
    ("send-current", call r "sendCurrentTab" sendCurrentTab);
    ("update-request",
       call r "updateRequestTab" (updateRequestTab (arg args 0) (arg args 1))) ].

(** [execRequestAction(e, action, ...args)] *)
Definition execRequestAction (action : JsVal) (args : list JsVal) : M unit :=
  log "Renderer request command handled: " ;;;
  let! r := this_app in
  switch action (request_action_cases r args)
    (throw (Error ("Unrecognized action " +:+ to_string action))).

(** [_themePreviewHandler(e, stylesMap)]: the call goes to
    [this.themeLoader]. *)
Definition _themePreviewHandler (stylesMap : JsVal) : M unit :=
  let! w := get in
  match themeLoader w with
  | None => throw (TypeError "previewThemes")
  | Some t =>
      modify (set_themeLoader
        (Some (mkThemeManager (loadTheme_calls t)
                              (previewThemes_calls t ++ [stylesMap]))))
  end.

(** ** The names the routers recognise *)

Definition command_names : list string :=
  [ "show-settings"; "about"; "open-license"; "import-data"; "export-data";
    "open-saved"; "open-history"; "open-drive"; "open-messages";
    "login-external-webservice"; "open-cookie-manager"; "open-hosts-editor";
    "get-tabs-count"; "activate-tab"; "get-request-data"; "open-themes";
    "open-requests-workspace"; "open-web-socket" ].

Definition request_action_names : list string :=
  [ "save"; "save-as"; "new-tab"; "send-current"; "update-request" ].

(** [action] selects one of the cases named in [names]. *)
Definition recognised (names : list string) (action : JsVal) : bool :=
  match action with
  | VStr s => bool_decide (s ∈ names)
  | _ => false
  end.

(** ** Events and the event loop *)

Inductive Event : Type :=
(* messages from the main process *)
| window_state_info (info : JsVal)
| command (action : JsVal) (args : list JsVal)
| request_action (action : JsVal) (args : list JsVal)
| theme_editor_preview (stylesMap : JsVal)
| update_message (name : string) (msg : list JsVal)
(* the window *)
| beforeunload
(* settlement of what chain number [chain] waits for *)
| import_load (chain : nat)
| import_error (chain : nat)
| polymer_loaded (chain : nat)
| polymer_failed (chain : nat)
| theme_loaded (chain : nat)
| theme_failed (chain : nat) (cause : JsError).

(** [ipc] calls the handler bound to the channel, if one is. *)
Definition bound (w : World) (ch : string) : option Handler :=
  snd <$> List.find (fun s => String.eqb (fst s) ch) (subscriptions w).

(** The reactions that follow the promise of [_createApp] once it has
    settled: lines 114, 115 and 98. *)
Definition after_createApp (p : Promise) : M Promise :=
  let! p := initApp_then p in
  let! p := initApp_catch p in
  stateInfo_then p.

(** The reactions that follow the promise of [loadTheme]: lines 115, 98. *)
Definition after_loadTheme (p : Promise) : M Promise :=
  let! p := initApp_catch p in
  stateInfo_then p.

(** Chain [i] moves to the stage its promise is left in. *)
Definition resume (i : nat) (c : M Promise) : M unit :=
  let! p := c in
  modify (fun w => set_chains (<[ i := stage_of p ]> (chains w)) w).

(** What running a handler leaves behind; an exception that escapes a
    handler is reported by the runtime and the loop goes on. *)
Definition handle (ev : Event) : M unit :=
  match ev with
  | window_state_info info => _stateInfoHandler info
  | command action args => commandHandler action args
  | request_action action args => execRequestAction action args
  | theme_editor_preview stylesMap => _themePreviewHandler stylesMap
  | update_message _ msg => updateEventHandler msg
  | beforeunload => beforeUnloadWindow
  | import_load i => resume i (let! p := createApp_then_import in after_createApp p)
  | import_error i => resume i (let! p := createApp_catch in after_createApp p)
  | polymer_loaded i => resume i (let! p := attempt createApp_then_attach in after_createApp p)
  | polymer_failed i => resume i (let! p := polymer_reject in after_createApp p)
  | theme_loaded i => resume i (after_loadTheme Resolved)
  | theme_failed i cause => resume i (after_loadTheme (Rejected cause))
  end.

(** An event can happen when its handler is bound, or when the chain it
    settles waits for it. *)
Definition enabled (w : World) (ev : Event) : bool :=
  match ev with
  | window_state_info _ =>
      match bound w "window-state-info" with Some stateInfoHandler_h => true | _ => false end
  | command _ _ =>
      match bound w "command" with Some commandHandler_h => true | _ => false end
  | request_action _ _ =>
      match bound w "request-action" with Some execRequestAction_h => true | _ => false end
  | theme_editor_preview _ =>
      match bound w "theme-editor-preview" with Some themePreviewHandler_h => true | _ => false end
  | update_message name _ =>
      match bound w name with Some updateEventHandler_h => true | _ => false end
  | beforeunload => onbeforeunload w
  | import_load i | import_error i =>
      match chains w !! i with Some AwaitImport => true | _ => false end
  | polymer_loaded i | polymer_failed i =>
      match chains w !! i with Some AwaitPolymer => true | _ => false end
  | theme_loaded i | theme_failed i _ =>
      match chains w !! i with Some AwaitTheme => true | _ => false end
  end.

Definition step (w : World) (ev : Event) : World :=
  if enabled w ev then exec (handle ev) w else w.

Definition run (w : World) (evs : list Event) : World := fold_left step evs w.

(** The last three lines of the script: the object is built, it listens and
    asks the main process for the window state. *)
Definition initScript : World := exec (listen ;;; requestState) constructor.

(** The application elements in the document, and the fatal errors sent. *)
Definition shells (w : World) : nat := length (filter (fun el => is_app el = true) (body w)).

Definition fatal_errors (w : World) : list (list JsVal) :=
  payload <$> filter (fun m => channel m = "fatal-error") (sent w).

(** ** Frames *)

(** Every world a computation can leave is related by [R] to the world it
    started from. *)
Definition respects {A : Type} (R : World -> World -> Prop) (c : M A) : Prop :=
  forall w, R w (exec c w).

(** What the bridge leaves alone outside the bootstrap handler and the
    callback that attaches the application element: its own fields, the
    bindings, the chains, and how many application elements the document
    holds. *)
Record stable (w w' : World) : Prop := mkStable {
  stable_created : created w' = created w;
  stable_themeLoader : themeLoader w = None -> themeLoader w' = None;
  stable_workspaceIndex : workspaceIndex w' = workspaceIndex w;
  stable_initConfig : initConfig w' = initConfig w;
  stable_ArcConfig : ArcConfig w' = ArcConfig w;
  stable_subscriptions : subscriptions w' = subscriptions w;
  stable_onbeforeunload : onbeforeunload w' = onbeforeunload w;
  stable_chains : chains w' = chains w;
  stable_shells : shells w' = shells w;
  stable_body_length : length (body w') = length (body w)
}.

(** What a bootstrap with the object [o] turns [w] into. *)
Record bootstrapped (o : gmap string JsVal) (w w' : World) : Prop := mkBootstrapped {
  boot_workspaceIndex : workspaceIndex w' = prop (default_workspaceIndex o) "workspaceIndex";
  boot_initConfig : initConfig w' = Some (default_workspaceIndex o);
  boot_ArcConfig : ArcConfig w' = Some (Some (default_workspaceIndex o));
  boot_workspaceManager :
    workspaceManager w' = Some (mkWorkspaceManager
      (prop (default_workspaceIndex o) "workspaceIndex")
      (workspace_opts (prop (default_workspaceIndex o) "workspacePath")) true);
  boot_chains : chains w' = chains w ++ [if created w then AwaitTheme else AwaitImport];
  boot_head :
    head w' = if created w then head w
              else head w ++ [import_link (prop (default_workspaceIndex o) "importFile")];
  boot_loadTheme :
    loadTheme_calls (themeManager w') =
      if created w
      then loadTheme_calls (themeManager w) ++ [prop (default_workspaceIndex o) "themeFile"]
      else loadTheme_calls (themeManager w);
  boot_created : created w' = created w;
  boot_themeLoader : themeLoader w' = themeLoader w;
  boot_subscriptions : subscriptions w' = subscriptions w;
  boot_onbeforeunload : onbeforeunload w' = onbeforeunload w;
  boot_body : body w' = body w;
  boot_sent : sent w' = sent w
}.

(** The chains that still wait for the imports that come before the
    application element is attached. *)
Definition importing (s : Stage) : bool :=
  match s with
  | AwaitImport | AwaitPolymer => true
  | AwaitTheme | Settled => false
  end.

(** What is left of [w] when chain [i] ends in a fatal error with the
    message [msg]: the chain is settled, one message went out on
    [fatal-error], and neither the document, the flag, the Polymer imports nor
    the theme manager were touched. *)
Record aborted_with (msg : string) (i : nat) (w w' : World) : Prop := mkAborted {
  aborted_chain : chains w' = <[ i := Settled ]> (chains w);
  aborted_sent : sent w' = sent w ++ [mkSent ipc "fatal-error" [VStr msg]];
  aborted_fatal : fatal_errors w' = fatal_errors w ++ [[VStr msg]];
  aborted_body : body w' = body w;
  aborted_head : head w' = head w;
  aborted_created : created w' = created w;
  aborted_polymer : polymer_imports w' = polymer_imports w;
  aborted_theme : themeManager w' = themeManager w
}.

(** The application element exists and no chain is on its way to attach
    another one. *)
Definition quiet (w : World) : Prop :=
  created w = true /\ Forall (fun s => importing s = false) (chains w).

(** The kinds of transition the loop makes: one that leaves the bridge
    [stable]; a bootstrap; a chain that moves on without attaching anything;
    and the callback of line 151, which attaches the application element and
    sets the flag. *)
Inductive transition (w : World) (ev : Event) (w' : World) : Prop :=
| tr_stable :
    stable w w' -> transition w ev w'
| tr_bootstrap (o : gmap string JsVal) :
    bootstrapped o w w' -> transition w ev w'
| tr_settle (i : nat) (s s' : Stage) :
    chains w !! i = Some s -> s <> Settled ->
    (importing s' = true -> importing s = true) ->
    chains w' = <[ i := s' ]> (chains w) ->
    created w' = created w -> body w' = body w ->
    themeLoader w' = themeLoader w -> subscriptions w' = subscriptions w ->
    transition w ev w'
| tr_attach (i : nat) (el : ArcElectron) :
    ev = polymer_loaded i ->
    chains w !! i = Some AwaitPolymer ->
    chains w' = <[ i := AwaitTheme ]> (chains w) ->
    created w' = true -> is_app el = true -> body w' = body w ++ [el] ->
    themeLoader w' = themeLoader w -> subscriptions w' = subscriptions w ->
    transition w ev w'.

(** ** What the bridge sends, loads and calls *)

(** [l'] is [l] with elements that satisfy [P] added at the end. *)
Definition extends {A : Type} (P : A -> Prop) (l l' : list A) : Prop :=
  exists k, l' = l ++ k /\ Forall P k.

(** The channels the bridge sends on once its opening request is out. *)
Definition outbound_channels : list string :=
  [ "fatal-error"; "window-reloading"; "current-tabs-count"; "tab-activated";
    "request-data" ].

Definition outbound (m : Sent) : bool := bool_decide (channel m ∈ outbound_channels).

(** What no handler and no callback undoes: messages, Polymer imports, head
    links and console lines are only added; the [onbeforeunload] binding and
    the calls to [previewThemes] stay as they are. *)
Record grows (w w' : World) : Prop := mkGrows {
  grows_sent : extends (fun m => outbound m = true) (sent w) (sent w');
  grows_polymer :
    extends (fun href => href = "src/arc-electron.html")
            (polymer_imports w) (polymer_imports w');
  grows_head : extends (fun k => rel k = "import") (head w) (head w');
  grows_console : extends (fun _ => True) (console w) (console w');
  grows_onbeforeunload : onbeforeunload w' = onbeforeunload w;
  grows_previews :
    previewThemes_calls (themeManager w') = previewThemes_calls (themeManager w)
}.

(** The commands of [commandHandler] that are one call on the application
    element, with the method each one calls (lines 232 to 243 and 247 to
    249). *)
Definition shell_commands : list (string * ShellCall) :=
  [ ("show-settings", openSettings); ("about", openAbout);
    ("open-license", openLicense); ("import-data", openImport);
    ("export-data", openExport); ("open-saved", openSaved);
    ("open-history", openHistory); ("open-drive", openDrivePicker);
    ("open-messages", openInfoCenter); ("login-external-webservice", openWebUrl);
    ("open-cookie-manager", openCookieManager); ("open-hosts-editor", openHostRules);
    ("open-themes", openThemesPanel); ("open-requests-workspace", openWorkspace);
    ("open-web-socket", openWebSocket) ].

(** The request actions with the call each one makes (lines 302 to 318). *)
Definition request_actions (args : list JsVal) : list (string * ShellCall) :=
  [ ("save", saveOpened (Some {[ "source" := VStr "shortcut" ]}));
    ("save-as", saveOpened None);
    ("new-tab", newRequestTab);
    ("send-current", sendCurrentTab);
    ("update-request", updateRequestTab (arg args 0) (arg args 1)) ].

(** The chains that have not yet reached the callback that attaches the
    element. *)
Definition importing_chains (w : World) : nat :=
  length (List.filter importing (chains w)).

(** The bindings [listen] makes, in its order. *)
Definition listen_bindings : list (string * Handler) :=
  [ ("checking-for-update", updateEventHandler_h);
    ("update-available", updateEventHandler_h);
    ("update-not-available", updateEventHandler_h);
    ("autoupdate-error", updateEventHandler_h);
    ("download-progress", updateEventHandler_h);
    ("update-downloaded", updateEventHandler_h);
    ("command", commandHandler_h);
    ("request-action", execRequestAction_h);
    ("theme-editor-preview", themePreviewHandler_h);
    ("window-state-info", stateInfoHandler_h) ].

(** The five forms a message of the bridge has after the opening request:
    the two notices on [ipc], with one payload entry and with none, and the
    three replies through the sender of the event, each with the call
    identifier first and [false] as the error flag. *)
Definition well_formed (m : Sent) : bool :=
  match port m, payload m with
  | ipc, [_] => String.eqb (channel m) "fatal-error"
  | ipc, [] => String.eqb (channel m) "window-reloading"
  | e_sender, [_; VBool false] => String.eqb (channel m) "tab-activated"
  | e_sender, [_; VBool false; _] =>
      String.eqb (channel m) "current-tabs-count" || String.eqb (channel m) "request-data"
  | _, _ => false
  end.

(** The messages added from [w] to [w'] are well formed. *)
Definition shaped (w w' : World) : Prop :=
  extends (fun m => well_formed m = true) (sent w) (sent w').

(** The three places the config is kept in. *)
Definition config_kept (w w' : World) : Prop :=
  workspaceIndex w' = workspaceIndex w /\ initConfig w' = initConfig w /\
  ArcConfig w' = ArcConfig w.

(** The bridge and the window hold the same config, and the index on the
    bridge is the one in it; or no bootstrap has been handled yet. *)
Definition config_coherent (w : World) : Prop :=
  match initConfig w with
  | Some cfg =>
      ArcConfig w = Some (Some cfg) /\ prop cfg "workspaceIndex" = workspaceIndex w /\
      (falsy (workspaceIndex w) = false \/ workspaceIndex w = VNum 0)
  | None => workspaceIndex w = VUndefined
  end.

(** * Properties *)

(** ** The [switch] *)

Lemma switch_no_case {A : Type} (v : JsVal) (cases : list (string * A)) (d : A) :
  (forall name, name ∈ (fst <$> cases) -> strict_eq_str v name = false) ->
  switch v cases d = d.
Proof.
  induction cases as [|[name body0] rest IH]; intros Hno; [reflexivity|].
  cbn [switch]. rewrite Hno by (rewrite fmap_cons; left).
  apply IH. intros n Hn. apply Hno. rewrite fmap_cons. by right.
Qed.

Lemma not_recognised (names : list string) (v : JsVal) :
  recognised names v = false ->
  forall name, name ∈ names -> strict_eq_str v name = false.
Proof.
  intros Hrec name Hin. destruct v as [| | | |s|]; try reflexivity.
  cbn in *. apply bool_decide_eq_false in Hrec.
  destruct (String.eqb_spec s name) as [->|]; [contradiction | reflexivity].
Qed.

Lemma command_cases_names (r : option ArcElectron) (args : list JsVal) :
  fst <$> command_cases r args = command_names.
Proof. reflexivity. Qed.

Lemma request_action_cases_names (r : option ArcElectron) (args : list JsVal) :
  fst <$> request_action_cases r args = request_action_names.
Proof. reflexivity. Qed.

(** ** The routers on a name they do not know *)

(** C5.  The command table has eighteen names and they are the cases of the
    [switch]; for an action that is none of them, [commandHandler] returns
    normally and leaves the world as the opening [console.info] left it: no
    method of the application element is called and nothing is sent. *)
Theorem commandHandler_unknown_is_noop (w : World) (action : JsVal) (args : list JsVal) :
  recognised command_names action = false ->
  length command_names = 18 /\
  (fst <$> command_cases (app w) args) = command_names /\
  outcome (commandHandler action args) w = Ok tt /\
  exec (commandHandler action args) w = exec (log "Renderer command handled: ") w /\
  body (exec (commandHandler action args) w) = body w /\
  sent (exec (commandHandler action args) w) = sent w.
Proof.
  intros Hrec.
  assert (Hsw : forall r, switch action (command_cases r args) (ret tt) = ret tt).
  { intros r. apply switch_no_case. rewrite command_cases_names.
    by apply not_recognised. }
  cbv [commandHandler exec outcome bind this_app log modify].
  rewrite Hsw. repeat split; reflexivity.
Qed.

Lemma commandHandler_unknown_is_noop_witness :
  outcome (commandHandler (VStr "open-everything") [VNum 1]) initScript = Ok tt /\
  sent (exec (commandHandler (VStr "open-everything") [VNum 1]) initScript) = sent initScript.
Proof.
  pose proof (commandHandler_unknown_is_noop initScript (VStr "open-everything")
                [VNum 1] eq_refl) as H.
  split; [apply H | apply H].
Defined.

(** C6.  For an action outside the five request actions,
    [execRequestAction] throws [Error('Unrecognized action ' + action)];
    apart from the opening [console.info] the world is untouched, so no method
    of the application element is called. *)
Theorem execRequestAction_unknown_throws (w : World) (action : JsVal) (args : list JsVal) :
  recognised request_action_names action = false ->
  request_action_names = ["save"; "save-as"; "new-tab"; "send-current"; "update-request"] /\
  (fst <$> request_action_cases (app w) args) = request_action_names /\
  outcome (execRequestAction action args) w
    = Throw (Error ("Unrecognized action " +:+ to_string action)) /\
  exec (execRequestAction action args) w
    = exec (log "Renderer request command handled: ") w /\
  body (exec (execRequestAction action args) w) = body w /\
  sent (exec (execRequestAction action args) w) = sent w.
Proof.
  intros Hrec.
  assert (Hsw : forall r d, switch action (request_action_cases r args) d = d).
  { intros r d. apply switch_no_case. rewrite request_action_cases_names.
    by apply not_recognised. }
  cbv [execRequestAction exec outcome bind this_app log modify].
  rewrite Hsw. repeat split; reflexivity.
Qed.

Lemma execRequestAction_unknown_throws_witness :
  outcome (execRequestAction (VStr "delete-all") []) initScript
    = Throw (Error "Unrecognized action delete-all").
Proof.
  pose proof (execRequestAction_unknown_throws initScript (VStr "delete-all") [] eq_refl) as H.
  apply H.
Defined.

(** ** Frame rules of the monad *)

Section Respects.

Variable R : World -> World -> Prop.
Hypothesis R_refl : forall w, R w w.
Hypothesis R_trans : forall w1 w2 w3, R w1 w2 -> R w2 w3 -> R w1 w3.

Lemma respects_ret {A} (a : A) : respects R (ret a).
Proof. intros w. apply R_refl. Qed.

Lemma respects_throw {A} (e : JsError) : respects R (@throw A e).
Proof. intros w. apply R_refl. Qed.

Lemma respects_get : respects R get.
Proof. intros w. apply R_refl. Qed.

Lemma respects_this_app : respects R this_app.
Proof. intros w. apply R_refl. Qed.

Lemma respects_modify (f : World -> World) :
  (forall w, R w (f w)) -> respects R (modify f).
Proof. intros Hf w. apply Hf. Qed.

Lemma respects_bind {A B} (c : M A) (k : A -> M B) :
  respects R c -> (forall a, respects R (k a)) -> respects R (bind c k).
Proof.
  intros Hc Hk w. unfold exec, bind.
  specialize (Hc w). unfold exec in Hc.
  destruct (c w) as [w' [a|e]]; cbn in *; [|assumption].
  apply R_trans with w'; [assumption | apply Hk].
Qed.

Lemma respects_attempt (c : M unit) : respects R c -> respects R (attempt c).
Proof.
  intros Hc w. specialize (Hc w). unfold exec, attempt in *.
  by destruct (c w) as [w' [a|e]].
Qed.

Lemma respects_switch {A} (v : JsVal) (cases : list (string * M A)) (d : M A) :
  Forall (fun c => respects R c.2) cases -> respects R d ->
  respects R (switch v cases d).
Proof.
  intros Hcases Hd.
  induction Hcases as [|[name body0] rest Hb _ IH]; [exact Hd|].
  cbn [switch]. by destruct (strict_eq_str v name).
Qed.

Lemma respects_initConfig_prop (k : string) : respects R (initConfig_prop k).
Proof.
  intros w. unfold exec, initConfig_prop, bind, get. cbn.
  destruct (initConfig w); apply R_refl.
Qed.

End Respects.

(** ** What the handlers leave stable *)

Lemma stable_refl (w : World) : stable w w.
Proof. by constructor. Qed.

Lemma stable_trans (w1 w2 w3 : World) : stable w1 w2 -> stable w2 w3 -> stable w1 w3.
Proof. intros [] []. constructor; solve [congruence | auto]. Qed.

Lemma filter_update_app (f : ArcElectron -> ArcElectron) (els : list ArcElectron) :
  (forall el, el_id (f el) = el_id el) ->
  filter (fun el => is_app el = true) (update_app f els)
    = update_app f (filter (fun el => is_app el = true) els).
Proof.
  intros Hid. induction els as [|el rest IH]; [done|].
  cbn [update_app]. destruct (is_app el) eqn:Happ.
  - assert (Hf : is_app (f el) = true) by (unfold is_app in *; by rewrite Hid).
    rewrite !filter_cons, Happ, Hf.
    destruct (decide (true = true)); [|done]. cbn [update_app]. by rewrite Happ.
  - rewrite !filter_cons, Happ.
    destruct (decide (false = true)); [done|]. exact IH.
Qed.

Lemma update_app_length (f : ArcElectron -> ArcElectron) (els : list ArcElectron) :
  length (update_app f els) = length els.
Proof.
  induction els as [|el rest IH]; [done|].
  cbn [update_app]. destruct (is_app el); cbn; by rewrite ?IH.
Qed.

Lemma shells_update_app (f : ArcElectron -> ArcElectron) (w : World) :
  (forall el, el_id (f el) = el_id el) ->
  shells (set_body (update_app f (body w)) w) = shells w.
Proof.
  intros Hid. unfold shells. cbn.
  rewrite filter_update_app by assumption. apply update_app_length.
Qed.

Lemma stable_on_app (r : option ArcElectron) (member : string)
    (f : ArcElectron -> ArcElectron) :
  (forall el, el_id (f el) = el_id el) -> respects stable (on_app r member f).
Proof.
  intros Hid. unfold on_app. destruct r; [|apply respects_throw; exact stable_refl].
  apply respects_modify. intros w. constructor; cbn; try done.
  - by apply shells_update_app.
  - apply update_app_length.
Qed.

(** Closes a [stable] goal about a field update. *)
Ltac stable_update :=
  intros; constructor; cbn;
  first [ done
        | apply shells_update_app; intros []; reflexivity
        | apply update_app_length ].

(** Walks through a computation built from [bind], [modify] and the
    branching forms. *)
Ltac stable_walk :=
  repeat first
    [ apply respects_ret; exact stable_refl
    | apply respects_throw; exact stable_refl
    | apply respects_get; exact stable_refl
    | apply respects_this_app; exact stable_refl
    | apply respects_initConfig_prop; exact stable_refl
    | apply respects_modify; solve [stable_update]
    | apply stable_on_app; intros []; reflexivity
    | apply respects_attempt
    | apply (respects_bind stable stable_trans); [|intros ?]
    | apply (respects_switch stable);
        [repeat (apply Forall_cons_2 || apply Forall_nil_2); cbn [snd]|]
    | assumption
    | match goal with
      | |- respects _ (match ?x with _ => _ end) => destruct x
      end ].

Create HintDb stable.

Lemma stable_log (s : string) : respects stable (log s).
Proof. unfold log. stable_walk. Qed.

Lemma stable_send (p : Port) (ch : string) (args : list JsVal) :
  respects stable (send p ch args).
Proof. unfold send. stable_walk. Qed.

Lemma stable_call (r : option ArcElectron) (member : string) (c : ShellCall) :
  respects stable (call r member c).
Proof. apply stable_on_app. by intros []. Qed.

Lemma stable_loadTheme (f : JsVal) : respects stable (loadTheme f).
Proof. unfold loadTheme. stable_walk. Qed.

#[local] Hint Resolve stable_log stable_send stable_call stable_loadTheme : stable.

Ltac stable_auto := stable_walk; try solve [auto with stable].

Lemma stable_reportFatalError (err : JsError) : respects stable (reportFatalError err).
Proof. unfold reportFatalError. stable_auto. Qed.

Lemma stable_sendTabsCount (callId : JsVal) : respects stable (sendTabsCount callId).
Proof. unfold sendTabsCount. stable_auto. Qed.

Lemma stable_activateTab (callId tabId : JsVal) : respects stable (activateTab callId tabId).
Proof. unfold activateTab. stable_auto. Qed.

Lemma stable_getRequestData (callId tabId : JsVal) :
  respects stable (getRequestData callId tabId).
Proof. unfold getRequestData. stable_auto. Qed.

#[local] Hint Resolve stable_reportFatalError stable_sendTabsCount
  stable_activateTab stable_getRequestData : stable.

Lemma stable_commandHandler (action : JsVal) (args : list JsVal) :
  respects stable (commandHandler action args).
Proof. unfold commandHandler, command_cases. stable_auto. Qed.

Lemma stable_execRequestAction (action : JsVal) (args : list JsVal) :
  respects stable (execRequestAction action args).
Proof. unfold execRequestAction, request_action_cases. stable_auto. Qed.

Lemma stable_updateEventHandler (msg : list JsVal) :
  respects stable (updateEventHandler msg).
Proof. unfold updateEventHandler. stable_auto. Qed.

Lemma stable_beforeUnloadWindow : respects stable beforeUnloadWindow.
Proof. unfold beforeUnloadWindow. stable_auto. Qed.

Lemma stable__importHref (h : JsVal) : respects stable (_importHref h).
Proof. unfold _importHref. stable_auto. Qed.

#[local] Hint Resolve stable__importHref : stable.

Lemma stable__createApp : respects stable _createApp.
Proof. unfold _createApp. stable_auto. Qed.

Lemma stable_createApp_then_import : respects stable createApp_then_import.
Proof. unfold createApp_then_import. stable_auto. Qed.

Lemma stable_initApp_then (p : Promise) : respects stable (initApp_then p).
Proof.
  destruct p; try (unfold initApp_then; stable_auto).
  intros w. unfold exec. cbn.
  assert (H : respects stable (let! f := initConfig_prop "themeFile" in loadTheme f))
    by stable_auto.
  specialize (H w). unfold exec in H.
  by destruct ((let! f := initConfig_prop "themeFile" in loadTheme f) w) as [w' [a|e]].
Qed.

Lemma stable_initApp_catch (p : Promise) : respects stable (initApp_catch p).
Proof. unfold initApp_catch. stable_auto. Qed.

Lemma stable_stateInfo_then (p : Promise) : respects stable (stateInfo_then p).
Proof. unfold stateInfo_then. stable_auto. Qed.

#[local] Hint Resolve stable_initApp_then stable_initApp_catch stable_stateInfo_then
  stable__createApp stable_createApp_then_import : stable.

Lemma stable_after_createApp (p : Promise) : respects stable (after_createApp p).
Proof. unfold after_createApp. stable_auto. Qed.

Lemma stable_after_loadTheme (p : Promise) : respects stable (after_loadTheme p).
Proof. unfold after_loadTheme. stable_auto. Qed.

Lemma stable_initApp : respects stable initApp.
Proof. unfold initApp. stable_auto. Qed.

Lemma stable__themePreviewHandler (stylesMap : JsVal) :
  respects stable (_themePreviewHandler stylesMap).
Proof.
  intros w. unfold exec, _themePreviewHandler, bind, get. cbn.
  destruct (themeLoader w) eqn:Htl; [|apply stable_refl].
  constructor; cbn; try done. congruence.
Qed.

(** ** The bootstrap handler *)

Lemma initApp_run (w : World) (cfg : gmap string JsVal) :
  initConfig w = Some cfg ->
  exists w',
    initApp w = (w', Ok (Pending (if created w then AwaitTheme else AwaitImport))) /\
    stable w w' /\ body w' = body w /\ sent w' = sent w /\
    themeLoader w' = themeLoader w /\
    workspaceManager w' = Some (mkWorkspaceManager (workspaceIndex w)
                                  (workspace_opts (prop cfg "workspacePath")) true) /\
    head w' = (if created w then head w
               else head w ++ [import_link (prop cfg "importFile")]) /\
    loadTheme_calls (themeManager w') =
      (if created w then loadTheme_calls (themeManager w) ++ [prop cfg "themeFile"]
       else loadTheme_calls (themeManager w)).
Proof.
  intros Hcfg.
  cbv [initApp _createApp initApp_then initApp_catch initConfig_prop bind get
       modify log ret _importHref loadTheme throw].
  cbn [initConfig set_console set_workspaceManager created]. rewrite Hcfg.
  destruct (created w) eqn:Hc; repeat (progress (cbn; rewrite ?Hcfg, ?Hc));
    (eexists; split; [reflexivity|]); cbn; rewrite ?Hc; repeat split; done.
Qed.

Lemma stateInfoHandler_object (w : World) (o : gmap string JsVal) :
  exists w', _stateInfoHandler (VObj o) w = (w', Ok tt) /\ bootstrapped o w w'.
Proof.
  set (cfg := default_workspaceIndex o).
  set (w0 := set_ArcConfig (Some (Some cfg))
               (set_initConfig (Some cfg)
                  (match ArcConfig (set_workspaceIndex (prop cfg "workspaceIndex") w) with
                   | None => set_ArcConfig (Some None)
                               (set_workspaceIndex (prop cfg "workspaceIndex") w)
                   | Some _ => set_workspaceIndex (prop cfg "workspaceIndex") w
                   end))).
  assert (Hw0 : initConfig w0 = Some cfg) by reflexivity.
  destruct (initApp_run w0 cfg Hw0) as (w1 & Hrun & Hst & Hbody & Hsent & Htl & Hwm & Hhead & Hth).
  exists (set_chains (chains w1 ++ [if created w then AwaitTheme else AwaitImport]) w1).
  assert (Hw : created w0 = created w /\ workspaceIndex w0 = prop cfg "workspaceIndex" /\
               chains w0 = chains w /\ subscriptions w0 = subscriptions w /\
               onbeforeunload w0 = onbeforeunload w /\ body w0 = body w /\
               sent w0 = sent w /\ themeLoader w0 = themeLoader w /\
               head w0 = head w /\ themeManager w0 = themeManager w /\
               ArcConfig w0 = Some (Some cfg)).
  { subst w0; cbn; by destruct (ArcConfig w). }
  destruct Hw as (Hc0 & Hwi & Hch & Hsub & Hunl & Hb0 & Hs0 & Ht0 & Hh0 & Hm0 & Hac).
  split.
  - cbv [_stateInfoHandler falsy bind modify]. fold cfg. fold w0.
    rewrite Hrun, Hc0. by destruct (created w).
  - destruct Hst. rewrite Hc0 in *.
    constructor; cbn; rewrite ?Hbody, ?Hsent, ?Htl, ?Hwm, ?Hhead, ?Hth; fold cfg;
      rewrite ?Hwi, ?Hh0, ?Hm0; congruence.
Qed.

Lemma stateInfoHandler_falsy (w : World) (info : JsVal) :
  falsy info = true -> _stateInfoHandler info w = _stateInfoHandler (VObj ∅) w.
Proof. intros Hf. unfold _stateInfoHandler. rewrite Hf. reflexivity. Qed.

Lemma stateInfoHandler_primitive (w : World) (info : JsVal) :
  falsy info = false -> (forall o, info <> VObj o) ->
  _stateInfoHandler info w = (w, Throw (TypeError "workspaceIndex")).
Proof.
  intros Hf Hno. unfold _stateInfoHandler. rewrite Hf.
  destruct info; try reflexivity. by destruct (Hno o).
Qed.

(** C8.  When the payload has no [workspaceIndex] property, the handler
    returns normally and the index it stores is [0]: on the bridge
    ([this.workspaceIndex]), in [this.initConfig], and in the process-wide
    [window.ArcConfig.initConfig], which otherwise hold the payload as it
    came; the workspace manager is built with index [0]. *)
Theorem missing_workspaceIndex_defaults_to_0 (w : World) (o : gmap string JsVal) :
  o !! "workspaceIndex" = None ->
  outcome (_stateInfoHandler (VObj o)) w = Ok tt /\
  workspaceIndex (exec (_stateInfoHandler (VObj o)) w) = VNum 0 /\
  initConfig (exec (_stateInfoHandler (VObj o)) w)
    = Some (<[ "workspaceIndex" := VNum 0 ]> o) /\
  ArcConfig (exec (_stateInfoHandler (VObj o)) w)
    = Some (Some (<[ "workspaceIndex" := VNum 0 ]> o)) /\
  (<[ "workspaceIndex" := VNum 0 ]> o) !! "workspaceIndex" = Some (VNum 0) /\
  wm_index <$> workspaceManager (exec (_stateInfoHandler (VObj o)) w) = Some (VNum 0).
Proof.
  intros Hmiss.
  destruct (stateInfoHandler_object w o) as (w' & Hrun & Hb).
  unfold outcome, exec. rewrite Hrun. cbn [fst snd].
  assert (Hcfg : default_workspaceIndex o = <[ "workspaceIndex" := VNum 0 ]> o).
  { unfold default_workspaceIndex, prop. by rewrite Hmiss. }
  assert (Hidx : prop (default_workspaceIndex o) "workspaceIndex" = VNum 0).
  { rewrite Hcfg. unfold prop. by rewrite lookup_insert_eq. }
  destruct Hb. rewrite Hidx, Hcfg in *.
  repeat split; try assumption.
  - apply lookup_insert_eq.
  - by rewrite boot_workspaceManager0.
Qed.

Lemma missing_workspaceIndex_defaults_to_0_witness :
  workspaceIndex (exec (_stateInfoHandler
    (VObj {[ "workspacePath" := VStr "/tmp/w.json" ]})) initScript) = VNum 0.
Proof.
  pose proof (missing_workspaceIndex_defaults_to_0 initScript
                {[ "workspacePath" := VStr "/tmp/w.json" ]} eq_refl) as H.
  apply H.
Defined.

(** C10.  With no payload ([undefined]) or a [null] one, the handler
    returns normally; the config it stores on the bridge and in
    [window.ArcConfig.initConfig] is the empty object with [workspaceIndex]
    set to [0]; the workspace manager is built with index [0] and no file
    path; and a chain is started: it waits for the components import, or for
    the theme when the application element already exists. *)
Theorem stateInfoHandler_without_payload (w : World) (info : JsVal) :
  info = VUndefined \/ info = VNull ->
  outcome (_stateInfoHandler info) w = Ok tt /\
  initConfig (exec (_stateInfoHandler info) w) = Some {[ "workspaceIndex" := VNum 0 ]} /\
  ArcConfig (exec (_stateInfoHandler info) w)
    = Some (Some {[ "workspaceIndex" := VNum 0 ]}) /\
  workspaceIndex (exec (_stateInfoHandler info) w) = VNum 0 /\
  workspaceManager (exec (_stateInfoHandler info) w)
    = Some (mkWorkspaceManager (VNum 0) ∅ true) /\
  chains (exec (_stateInfoHandler info) w)
    = chains w ++ [if created w then AwaitTheme else AwaitImport].
Proof.
  intros Hin.
  assert (Hf : falsy info = true) by (by destruct Hin as [->| ->]).
  unfold outcome, exec. rewrite stateInfoHandler_falsy by assumption.
  destruct (stateInfoHandler_object w ∅) as (w' & Hrun & Hb).
  rewrite Hrun. cbn [fst snd].
  assert (Hcfg : default_workspaceIndex ∅ = {[ "workspaceIndex" := VNum 0 ]}) by reflexivity.
  destruct Hb. rewrite Hcfg in *.
  repeat split; assumption.
Qed.

Lemma stateInfoHandler_without_payload_witness :
  outcome (_stateInfoHandler VNull) initScript = Ok tt /\
  chains (exec (_stateInfoHandler VNull) initScript) = [AwaitImport].
Proof.
  pose proof (stateInfoHandler_without_payload initScript VNull (or_intror eq_refl)) as H.
  split; apply H.
Defined.

(** ** The remote-call responder *)

Lemma find_update_app (f : ArcElectron -> ArcElectron) (els : list ArcElectron) :
  (forall el, el_id (f el) = el_id el) ->
  List.find is_app (update_app f els) = f <$> List.find is_app els.
Proof.
  intros Hid. induction els as [|el rest IH]; [reflexivity|].
  cbn [update_app List.find]. destruct (is_app el) eqn:Happ; cbn [List.find].
  - assert (Hf : is_app (f el) = true) by (unfold is_app in *; by rewrite Hid).
    by rewrite Hf.
  - by rewrite Happ.
Qed.

(** Before the element is attached [this.app] is [null]: the write to
    [workspace] throws and nothing is sent. *)
Lemma activateTab_without_app (w : World) (callId tabId : JsVal) :
  app w = None ->
  activateTab callId tabId w = (w, Throw (TypeError "workspace")).
Proof. intros Happ. cbv [activateTab bind this_app on_app throw]. by rewrite Happ. Qed.

(** C7.  When the application element is in the document, [activateTab]
    returns normally for every call identifier and every tab identifier (no
    condition is put on either): [workspace.selected] of the element is the
    given tab identifier afterwards, and exactly one message is sent, on
    [tab-activated], with the call identifier and [false].  The command
    router reaches it with the first two arguments of the command. *)
Theorem activateTab_acknowledges (w : World) (el : ArcElectron) (callId tabId : JsVal) :
  app w = Some el ->
  outcome (activateTab callId tabId) w = Ok tt /\
  app (exec (activateTab callId tabId) w) = Some (set_selected tabId el) /\
  selected <$> app (exec (activateTab callId tabId) w) = Some tabId /\
  sent (exec (activateTab callId tabId) w)
    = sent w ++ [mkSent e_sender "tab-activated" [callId; VBool false]] /\
  forall rest,
    commandHandler (VStr "activate-tab") (callId :: tabId :: rest) w
    = activateTab callId tabId (exec (log "Renderer command handled: ") w).
Proof.
  intros Happ.
  assert (Hrun : forall w0, app w0 = Some el ->
            activateTab callId tabId w0
            = (set_sent (sent w0 ++ [mkSent e_sender "tab-activated" [callId; VBool false]])
                 (set_body (update_app (set_selected tabId) (body w0)) w0), Ok tt)).
  { intros w0 H0. cbv [activateTab bind this_app on_app send modify]. by rewrite H0. }
  unfold outcome, exec. rewrite (Hrun w Happ). cbn [fst snd].
  assert (Hfind : app (set_sent (sent w ++ [mkSent e_sender "tab-activated" [callId; VBool false]])
                    (set_body (update_app (set_selected tabId) (body w)) w))
                  = Some (set_selected tabId el)).
  { unfold app in *. cbn. rewrite find_update_app by (by intros []). by rewrite Happ. }
  repeat split; try done.
  by rewrite Hfind.
Qed.

Lemma activateTab_acknowledges_witness :
  let w := run initScript [window_state_info VUndefined; import_load 0; polymer_loaded 0] in
  selected <$> app (exec (commandHandler (VStr "activate-tab") [VNum 42; VNum 7]) w)
    = Some (VNum 7) /\
  sent (exec (activateTab (VNum 42) (VNum 7)) w)
    = sent w ++ [mkSent e_sender "tab-activated" [VNum 42; VBool false]].
Proof.
  set (w := run initScript [window_state_info VUndefined; import_load 0; polymer_loaded 0]).
  assert (Happ : app w = Some (record_call initApplication
                    (set_componentsDir VUndefined (set_el_id "app" createElement_arc_electron))))
    by reflexivity.
  pose proof (activateTab_acknowledges w _ (VNum 42) (VNum 7) Happ) as H.
  cbn zeta. split; [|apply H].
  destruct H as (_ & _ & _ & _ & Hcmd). unfold exec. rewrite Hcmd. reflexivity.
Defined.

(** ** Failures of the chain *)

Lemma fatal_errors_snoc (w w' : World) (m : Sent) :
  sent w' = sent w ++ [m] -> channel m = "fatal-error" ->
  fatal_errors w' = fatal_errors w ++ [payload m].
Proof.
  intros Hs Hc. unfold fatal_errors. rewrite Hs, filter_app, fmap_app.
  f_equal. rewrite filter_cons. destruct (decide (channel m = "fatal-error")); done.
Qed.

Lemma import_error_aborts (w : World) (i : nat) :
  chains w !! i = Some AwaitImport ->
  aborted_with "Unable to load components import file." i w (step w (import_error i)).
Proof.
  intros Hi. unfold step. cbn [enabled]. rewrite Hi.
  constructor; try reflexivity.
  by apply fatal_errors_snoc with (m := mkSent ipc "fatal-error" _).
Qed.

Lemma polymer_failed_aborts (w : World) (i : nat) :
  chains w !! i = Some AwaitPolymer ->
  aborted_with "Unable to load ARC app" i w (step w (polymer_failed i)).
Proof.
  intros Hi. unfold step. cbn [enabled]. rewrite Hi.
  constructor; try reflexivity.
  by apply fatal_errors_snoc with (m := mkSent ipc "fatal-error" _).
Qed.

(** ** Every step is one of the four transitions *)

Ltac stage_of_enabled H :=
  match type of H with
  | enabled ?w ?ev = true =>
      cbn [enabled] in H;
      match type of H with
      | context [chains w !! ?i] =>
          let Hs := fresh "Hstage" in
          destruct (chains w !! i) as [[]|] eqn:Hs; try discriminate H
      end
  end.

Lemma step_transition (w : World) (ev : Event) : transition w ev (step w ev).
Proof.
  unfold step. destruct (enabled w ev) eqn:Hen; [|apply tr_stable, stable_refl].
  destruct ev as [info|action args|action args|stylesMap|name msg| |i|i|i|i|i|i cause].
  - (* window-state-info *)
    unfold handle, exec.
    destruct (falsy info) eqn:Hf.
    + rewrite stateInfoHandler_falsy by assumption.
      destruct (stateInfoHandler_object w ∅) as (w' & -> & Hb). by eapply tr_bootstrap.
    + destruct info as [| | | | |o];
        try (rewrite stateInfoHandler_primitive by done; apply tr_stable, stable_refl).
      destruct (stateInfoHandler_object w o) as (w' & -> & Hb). by eapply tr_bootstrap.
  - apply tr_stable, stable_commandHandler.
  - apply tr_stable, stable_execRequestAction.
  - apply tr_stable, stable__themePreviewHandler.
  - apply tr_stable, stable_updateEventHandler.
  - apply tr_stable, stable_beforeUnloadWindow.
  - (* the components import loaded *)
    stage_of_enabled Hen.
    by apply (tr_settle _ _ _ i AwaitImport AwaitPolymer).
  - (* the components import failed *)
    stage_of_enabled Hen.
    by apply (tr_settle _ _ _ i AwaitImport Settled).
  - (* the application component loaded *)
    stage_of_enabled Hen.
    destruct (initConfig w) as [cfg|] eqn:Hcfg.
    + apply (tr_attach _ _ _ i
               (record_call initApplication
                  (set_componentsDir (prop cfg "appComponents")
                     (set_el_id "app" createElement_arc_electron))));
        try done;
        cbv [handle exec resume bind attempt createApp_then_attach _setupApp
             initConfig_prop get log modify ret after_createApp initApp_then
             initApp_catch stateInfo_then loadTheme];
        cbn; rewrite Hcfg; cbn; rewrite ?Hcfg; reflexivity.
    + apply (tr_settle _ _ _ i AwaitPolymer Settled); try done;
        cbv [handle exec resume bind attempt createApp_then_attach _setupApp
             initConfig_prop get log modify ret after_createApp initApp_then
             initApp_catch stateInfo_then loadTheme];
        cbn; rewrite Hcfg; reflexivity.
  - (* the application component failed to load *)
    stage_of_enabled Hen.
    by apply (tr_settle _ _ _ i AwaitPolymer Settled).
  - (* the theme loaded *)
    stage_of_enabled Hen.
    by apply (tr_settle _ _ _ i AwaitTheme Settled).
  - (* the theme failed to load *)
    stage_of_enabled Hen.
    by apply (tr_settle _ _ _ i AwaitTheme Settled).
Qed.

(** ** Invariants of the loop *)

(** An invariant of [step] is an invariant of [run]. *)
Lemma run_invariant (P : World -> Prop) :
  (forall w ev, P w -> P (step w ev)) ->
  forall evs w, P w -> P (run w evs).
Proof.
  intros Hstep evs. induction evs as [|ev evs IH]; intros w Hw; [exact Hw|].
  cbn. apply IH, Hstep, Hw.
Qed.

Lemma created_step (w : World) (ev : Event) :
  created w = true -> created (step w ev) = true.
Proof.
  intros Hc. destruct (step_transition w ev) as [[]|o []| |]; congruence.
Qed.

Lemma created_set_only_by_attach (w : World) (ev : Event) :
  created w = false -> created (step w ev) = true ->
  exists i el, ev = polymer_loaded i /\ chains w !! i = Some AwaitPolymer /\
               is_app el = true /\ body (step w ev) = body w ++ [el].
Proof.
  intros Hc Hc'.
  destruct (step_transition w ev) as [[]|o []| |i el]; try congruence.
  by exists i, el.
Qed.

Lemma createApp_when_created (w : World) :
  created w = true -> _createApp w = (w, Ok Resolved).
Proof. intros Hc. cbv [_createApp bind get]. by rewrite Hc. Qed.

Lemma themeLoader_step (w : World) (ev : Event) :
  themeLoader w = None -> themeLoader (step w ev) = None.
Proof.
  intros Hc. destruct (step_transition w ev) as [[]|o []| |]; try congruence. auto.
Qed.

Lemma subscriptions_step (w : World) (ev : Event) :
  subscriptions (step w ev) = subscriptions w.
Proof. destruct (step_transition w ev) as [[]|o []| |]; congruence. Qed.

Lemma subscriptions_run (w : World) (evs : list Event) :
  subscriptions (run w evs) = subscriptions w.
Proof.
  apply (run_invariant (fun w' => subscriptions w' = subscriptions w)); [|done].
  intros w' ev Hw'. by rewrite subscriptions_step.
Qed.

Lemma settled_step (w : World) (ev : Event) (i : nat) :
  chains w !! i = Some Settled -> chains (step w ev) !! i = Some Settled.
Proof.
  intros Hi.
  destruct (step_transition w ev) as [[]|o []|j s s' Hj Hs _ Hch|j el _ Hj Hch].
  - congruence.
  - rewrite boot_chains0. by apply lookup_app_l_Some.
  - rewrite Hch. rewrite list_lookup_insert_ne; [done|]. intros ->. congruence.
  - rewrite Hch. rewrite list_lookup_insert_ne; [done|]. intros ->. congruence.
Qed.

Lemma settled_run (w : World) (evs : list Event) (i : nat) :
  chains w !! i = Some Settled -> chains (run w evs) !! i = Some Settled.
Proof.
  intros Hi. apply (run_invariant (fun w' => chains w' !! i = Some Settled)); [|done].
  intros w' ev. apply settled_step.
Qed.

Lemma quiet_step (w : World) (ev : Event) :
  quiet w -> quiet (step w ev) /\ shells (step w ev) = shells w.
Proof.
  intros [Hc Hq].
  destruct (step_transition w ev) as [[]|o []|j s s' Hj Hs Himp Hch Hcr Hb|j el _ Hj].
  - unfold quiet. rewrite stable_created0, stable_chains0. done.
  - unfold quiet, shells. rewrite boot_created0, boot_chains0, boot_body0, Hc.
    repeat split; try done. apply Forall_app. split; [done|]. by repeat constructor.
  - unfold quiet, shells. rewrite Hcr, Hch, Hb. repeat split; try done.
    apply Forall_insert; [done|].
    rewrite Forall_lookup in Hq. specialize (Hq j s Hj).
    destruct (importing s') eqn:Hs'; [|done]. rewrite Himp in Hq; done.
  - rewrite Forall_lookup in Hq. specialize (Hq j _ Hj). discriminate.
Qed.

Lemma quiet_run (w : World) (evs : list Event) :
  quiet w -> quiet (run w evs) /\ shells (run w evs) = shells w.
Proof.
  intros Hq.
  apply (run_invariant (fun w' => quiet w' /\ shells w' = shells w)); [|done].
  intros w' ev [Hq' Hs']. destruct (quiet_step w' ev Hq') as [? ?]. split; congruence.
Qed.

(** The [load] event of the import link moves the chain to the
    application import and touches neither the body nor the flag. *)
Lemma import_load_step (w : World) (i : nat) :
  chains w !! i = Some AwaitImport ->
  chains (step w (import_load i)) = <[ i := AwaitPolymer ]> (chains w) /\
  body (step w (import_load i)) = body w /\
  initConfig (step w (import_load i)) = initConfig w /\
  created (step w (import_load i)) = created w.
Proof. intros Hi. unfold step. cbn [enabled]. by rewrite Hi. Qed.

(** The callback of line 151 does not look at the flag: it attaches an
    element whenever it runs. *)
Lemma attach_ignores_created (w : World) (i : nat) (cfg : gmap string JsVal) :
  chains w !! i = Some AwaitPolymer -> initConfig w = Some cfg ->
  body (step w (polymer_loaded i))
    = body w ++ [record_call initApplication
                   (set_componentsDir (prop cfg "appComponents")
                      (set_el_id "app" createElement_arc_electron))] /\
  chains (step w (polymer_loaded i)) = <[ i := AwaitTheme ]> (chains w) /\
  initConfig (step w (polymer_loaded i)) = initConfig w /\
  created (step w (polymer_loaded i)) = true.
Proof.
  intros Hi Hcfg. unfold step. cbn [enabled]. rewrite Hi.
  cbv [handle exec resume bind attempt createApp_then_attach _setupApp
       initConfig_prop get log modify ret after_createApp initApp_then
       initApp_catch stateInfo_then loadTheme].
  cbn. rewrite Hcfg. cbn. rewrite ?Hcfg. done.
Qed.

Lemma bootstrap_step (w : World) (o : gmap string JsVal) :
  bound w "window-state-info" = Some stateInfoHandler_h ->
  bootstrapped o w (step w (window_state_info (VObj o))).
Proof.
  intros Hb. unfold step. cbn [enabled]. rewrite Hb. unfold handle, exec.
  by destruct (stateInfoHandler_object w o) as (w' & -> & ?).
Qed.

(** ** Re-entry and failures of the chain *)

(** Two bootstraps, the second after the first chain has attached the
    element and every chain of the first has left the import stages: the
    number of application elements never changes again. *)
Lemma bootstrap_after_creation_attaches_nothing (w : World) (info : JsVal)
    (evs : list Event) :
  quiet w -> shells (run w (window_state_info info :: evs)) = shells w.
Proof. intros Hq. by destruct (quiet_run w (window_state_info info :: evs) Hq). Qed.

Example bootstrap_twice_in_sequence :
  let info := VObj {[ "importFile" := VStr "components.html" ]} in
  shells (run initScript [window_state_info info; import_load 0; polymer_loaded 0;
                          theme_loaded 0; window_state_info info; theme_loaded 1]) = 1.
Proof. vm_compute. reflexivity. Qed.

(** C1.  The second bootstrap arrives while the first chain still waits for
    the components import, whatever the two payloads are.  [created] is read
    on entry to [_createApp] only, and is still [false] then, so both chains go
    on to the import stage; when the first has attached its element and set
    the flag, the second attaches another one all the same: two application
    elements are in the document. *)
Theorem bootstrap_twice_in_flight_attaches_two_shells (o1 o2 : gmap string JsVal) :
  let evs := [window_state_info (VObj o1); window_state_info (VObj o2);
              import_load 0; import_load 1; polymer_loaded 0; polymer_loaded 1] in
  chains (run initScript (take 2 evs)) = [AwaitImport; AwaitImport] /\
  created (run initScript (take 5 evs)) = true /\
  shells (run initScript (take 5 evs)) = 1 /\
  shells (run initScript evs) = 2.
Proof.
  cbn [run fold_left take].
  set (w1 := step initScript (window_state_info (VObj o1))).
  assert (H1 : bootstrapped o1 initScript w1) by (by apply bootstrap_step).
  set (w2 := step w1 (window_state_info (VObj o2))).
  assert (H2 : bootstrapped o2 w1 w2).
  { apply bootstrap_step. unfold bound. by rewrite (boot_subscriptions _ _ _ H1). }
  assert (Hch2 : chains w2 = [AwaitImport; AwaitImport]).
  { rewrite (boot_chains _ _ _ H2), (boot_created _ _ _ H1), (boot_chains _ _ _ H1). done. }
  assert (Hb2 : body w2 = []).
  { by rewrite (boot_body _ _ _ H2), (boot_body _ _ _ H1). }
  pose proof (boot_initConfig _ _ _ H2) as Hc2.
  destruct (import_load_step w2 0) as (Hch3 & Hb3 & Hc3 & _); [by rewrite Hch2|].
  rewrite Hch2 in Hch3. change (<[0:=AwaitPolymer]> [AwaitImport; AwaitImport])
    with [AwaitPolymer; AwaitImport] in Hch3.
  destruct (import_load_step (step w2 (import_load 0)) 1)
    as (Hch4 & Hb4 & Hc4 & _); [by rewrite Hch3|].
  rewrite Hch3 in Hch4. change (<[1:=AwaitPolymer]> [AwaitPolymer; AwaitImport])
    with [AwaitPolymer; AwaitPolymer] in Hch4.
  destruct (attach_ignores_created (step (step w2 (import_load 0)) (import_load 1)) 0
              (default_workspaceIndex o2))
    as (Hb5 & Hch5 & Hc5 & Hcr5); [by rewrite Hch4|congruence|].
  rewrite Hch4 in Hch5. change (<[0:=AwaitTheme]> [AwaitPolymer; AwaitPolymer])
    with [AwaitTheme; AwaitPolymer] in Hch5.
  destruct (attach_ignores_created
              (step (step (step w2 (import_load 0)) (import_load 1)) (polymer_loaded 0)) 1
              (default_workspaceIndex o2))
    as (Hb6 & _); [by rewrite Hch5|congruence|].
  split; [exact Hch2|]. split; [exact Hcr5|]. split.
  - unfold shells. rewrite Hb5, Hb4, Hb3, Hb2. reflexivity.
  - unfold shells. rewrite Hb6, Hb5, Hb4, Hb3, Hb2. reflexivity.
Qed.

Example bootstrap_twice_in_flight :
  let info := VObj {[ "importFile" := VStr "components.html" ]} in
  length (body (run initScript
                  [window_state_info info; window_state_info info;
                   import_load 0; import_load 1; polymer_loaded 0; polymer_loaded 1])) = 2.
Proof. vm_compute. reflexivity. Qed.

(** C2, as the spec words it, fails: after a bootstrap and a successful
    components import, the failure of the application import does not send
    the text "unable to load application". *)
Lemma polymer_failure_message_counterexample :
  let w := run initScript [window_state_info VUndefined; import_load 0] in
  chains w !! 0 = Some AwaitPolymer /\
  ~ aborted_with "unable to load application" 0 w (step w (polymer_failed 0)).
Proof.
  split; [reflexivity|].
  intros [_ Hsent _ _ _ _ _ _]. vm_compute in Hsent. discriminate Hsent.
Qed.

(** C2, amended.  When [Polymer.importHref] fails for a chain, the chain is
    settled and stays so whatever happens next, no element is attached and
    the flag is not set, the theme is not requested, and exactly one message
    is sent on [fatal-error]: the text "Unable to load ARC app". *)
Theorem polymer_failure_is_fatal (w : World) (i : nat) :
  chains w !! i = Some AwaitPolymer ->
  aborted_with "Unable to load ARC app" i w (step w (polymer_failed i)) /\
  forall evs, chains (run (step w (polymer_failed i)) evs) !! i = Some Settled.
Proof.
  intros Hi. pose proof (polymer_failed_aborts w i Hi) as Hab.
  split; [exact Hab|]. intros evs. apply settled_run.
  destruct Hab as [-> _ _ _ _ _ _ _]. apply list_lookup_insert_eq.
  by apply lookup_lt_Some in Hi.
Qed.

Lemma polymer_failure_is_fatal_witness :
  let w := run initScript [window_state_info VUndefined; import_load 0] in
  fatal_errors (step w (polymer_failed 0)) = fatal_errors w ++ [[VStr "Unable to load ARC app"]].
Proof.
  set (w := run initScript [window_state_info VUndefined; import_load 0]).
  assert (Hi : chains w !! 0 = Some AwaitPolymer) by reflexivity.
  destruct (polymer_failure_is_fatal w 0 Hi) as [Hab _].
  cbn zeta. apply Hab.
Defined.

(** C4.  When the components import fails for a chain, exactly one message
    is sent on [fatal-error], with the text "Unable to load components import
    file."; no element is attached, the application import and the theme are
    not started, and the chain is settled for good.  The [catch] of line 138
    only replaces the reason of the rejection; the report is made once, by the
    [catch] of [initApp].  From the start of the script, a bootstrap followed
    by the failure leaves that one message and an empty body. *)
Theorem import_failure_is_fatal (w : World) (i : nat) :
  chains w !! i = Some AwaitImport ->
  aborted_with "Unable to load components import file." i w (step w (import_error i)) /\
  (forall evs, chains (run (step w (import_error i)) evs) !! i = Some Settled) /\
  createApp_catch w
    = (w, Ok (Rejected (Error "Unable to load components import file."))) /\
  step w (import_error i)
    = exec (resume i (let! p := initApp_catch
                        (Rejected (Error "Unable to load components import file.")) in
                      stateInfo_then p)) w /\
  forall o,
    fatal_errors (run initScript [window_state_info (VObj o); import_error 0])
      = [[VStr "Unable to load components import file."]] /\
    body (run initScript [window_state_info (VObj o); import_error 0]) = [].
Proof.
  intros Hi. pose proof (import_error_aborts w i Hi) as Hab.
  split; [exact Hab|]. split; [|split; [reflexivity|split]].
  - intros evs. apply settled_run.
    destruct Hab as [-> _ _ _ _ _ _ _]. apply list_lookup_insert_eq.
    by apply lookup_lt_Some in Hi.
  - unfold step. cbn [enabled]. by rewrite Hi.
  - intros o.
    destruct (stateInfoHandler_object initScript o) as (w1 & Hrun & Hb).
    assert (Hw1 : step initScript (window_state_info (VObj o)) = w1).
    { assert (Hen : enabled initScript (window_state_info (VObj o)) = true) by reflexivity.
      unfold step. rewrite Hen. unfold handle, exec. by rewrite Hrun. }
    change (run initScript [window_state_info (VObj o); import_error 0])
      with (step (step initScript (window_state_info (VObj o))) (import_error 0)).
    rewrite Hw1. destruct Hb.
    assert (H0 : chains w1 !! 0 = Some AwaitImport) by (by rewrite boot_chains0).
    destruct (import_error_aborts w1 0 H0).
    rewrite aborted_fatal0, aborted_body0, boot_body0.
    unfold fatal_errors. rewrite boot_sent0. done.
Qed.

Lemma import_failure_is_fatal_witness :
  let w := run initScript [window_state_info VUndefined] in
  sent (step w (import_error 0))
    = sent w ++ [mkSent ipc "fatal-error" [VStr "Unable to load components import file."]].
Proof.
  set (w := run initScript [window_state_info VUndefined]).
  assert (Hi : chains w !! 0 = Some AwaitImport) by reflexivity.
  destruct (import_failure_is_fatal w 0 Hi) as [Hab _].
  cbn zeta. apply Hab.
Defined.

(** C3.  Whatever has happened since the script started, the channel
    [theme-editor-preview] is bound to [_themePreviewHandler], but
    [this.themeLoader] has never been assigned (the constructor builds
    [themeManager]): the handler throws a [TypeError] on every message and
    nothing reaches the theme component. *)
Theorem themePreviewHandler_throws (evs : list Event) (stylesMap : JsVal) :
  bound (run initScript evs) "theme-editor-preview" = Some themePreviewHandler_h /\
  enabled (run initScript evs) (theme_editor_preview stylesMap) = true /\
  themeLoader (run initScript evs) = None /\
  _themePreviewHandler stylesMap (run initScript evs)
    = (run initScript evs, Throw (TypeError "previewThemes")) /\
  themeManager (step (run initScript evs) (theme_editor_preview stylesMap))
    = themeManager (run initScript evs).
Proof.
  assert (Hb : bound (run initScript evs) "theme-editor-preview"
               = Some themePreviewHandler_h).
  { unfold bound. by rewrite subscriptions_run. }
  assert (Htl : themeLoader (run initScript evs) = None).
  { apply (run_invariant (fun w => themeLoader w = None)); [|reflexivity].
    intros w ev. apply themeLoader_step. }
  assert (Hrun : _themePreviewHandler stylesMap (run initScript evs)
                 = (run initScript evs, Throw (TypeError "previewThemes"))).
  { cbv [_themePreviewHandler bind get]. by rewrite Htl. }
  repeat split; try assumption.
  - cbn [enabled]. by rewrite Hb.
  - unfold step. cbn [enabled]. rewrite Hb. unfold handle, exec. by rewrite Hrun.
Qed.

(** C9.  [created] starts as [false]; once [true] it stays [true] through
    every run of the loop; the only step that turns it from [false] to [true]
    is the callback that has just appended the application element to the
    body; and a [_createApp] call made when it is [true], at any later point,
    returns a resolved promise and leaves the whole world, the document
    included, as it was. *)
Theorem created_is_monotone :
  created constructor = false /\
  created initScript = false /\
  (forall w evs, created w = true -> created (run w evs) = true) /\
  (forall w ev, created w = false -> created (step w ev) = true ->
     exists i el, ev = polymer_loaded i /\ chains w !! i = Some AwaitPolymer /\
                  is_app el = true /\ body (step w ev) = body w ++ [el]) /\
  (forall w evs, created w = true ->
     _createApp (run w evs) = (run w evs, Ok Resolved)).
Proof.
  assert (Hrun : forall w evs, created w = true -> created (run w evs) = true).
  { intros w evs. apply (run_invariant (fun w' => created w' = true)).
    intros w' ev. apply created_step. }
  repeat split; try reflexivity.
  - exact Hrun.
  - apply created_set_only_by_attach.
  - intros w evs Hc. apply createApp_when_created, Hrun, Hc.
Qed.

Lemma created_is_monotone_witness :
  let w := run initScript [window_state_info VUndefined; import_load 0; polymer_loaded 0] in
  created w = true /\
  _createApp (run w [window_state_info VNull; beforeunload])
    = (run w [window_state_info VNull; beforeunload], Ok Resolved).
Proof.
  set (w := run initScript [window_state_info VUndefined; import_load 0; polymer_loaded 0]).
  assert (Hc : created w = true) by reflexivity.
  destruct created_is_monotone as (_ & _ & _ & _ & H).
  cbn zeta. split; [exact Hc | apply H, Hc].
Defined.

(** * Further properties of the bridge *)

(** ** What only grows *)

Lemma extends_refl {A : Type} (P : A -> Prop) (l : list A) : extends P l l.
Proof. exists []. split; [by rewrite app_nil_r | constructor]. Qed.

Lemma extends_trans {A : Type} (P : A -> Prop) (l1 l2 l3 : list A) :
  extends P l1 l2 -> extends P l2 l3 -> extends P l1 l3.
Proof.
  intros (k1 & -> & H1) (k2 & -> & H2). exists (k1 ++ k2).
  split; [by rewrite app_assoc | by apply Forall_app].
Qed.

Lemma extends_snoc {A : Type} (P : A -> Prop) (l : list A) (x : A) :
  P x -> extends P l (l ++ [x]).
Proof. intros Hx. exists [x]. split; [reflexivity | by repeat constructor]. Qed.

Lemma extends_Forall {A : Type} (P : A -> Prop) (l l' : list A) :
  extends P l l' -> Forall P l -> Forall P l'.
Proof. intros (k & -> & Hk) Hl. by apply Forall_app. Qed.

Lemma grows_refl (w : World) : grows w w.
Proof. constructor; solve [apply extends_refl | reflexivity]. Qed.

Lemma grows_trans (w1 w2 w3 : World) : grows w1 w2 -> grows w2 w3 -> grows w1 w3.
Proof.
  intros [] []. constructor; solve [eapply extends_trans; eassumption | congruence].
Qed.

(** Closes a [grows] goal about a field update. *)
Ltac grows_update :=
  intros; constructor; cbn;
  solve [ apply extends_refl
        | apply extends_snoc; solve [reflexivity | exact I]
        | reflexivity ].

Lemma grows_on_app (r : option ArcElectron) (member : string)
    (f : ArcElectron -> ArcElectron) :
  respects grows (on_app r member f).
Proof.
  unfold on_app. destruct r; [|apply (respects_throw grows grows_refl)].
  apply respects_modify. grows_update.
Qed.

Ltac grows_walk :=
  repeat first
    [ apply (respects_ret grows grows_refl)
    | apply grows_on_app
    | apply (respects_throw grows grows_refl)
    | apply (respects_get grows grows_refl)
    | apply (respects_this_app grows grows_refl)
    | apply (respects_initConfig_prop grows grows_refl)
    | apply (respects_modify grows); solve [grows_update]
    | apply (respects_attempt grows)
    | apply (respects_bind grows grows_trans); [|intros ?]
    | apply (respects_switch grows);
        [repeat (apply Forall_cons_2 || apply Forall_nil_2); cbn [snd]|]
    | match goal with
      | |- respects _ (match ?x with _ => _ end) => destruct x
      | |- respects _ (if ?x then _ else _) => destruct x
      end ].

Lemma grows_commandHandler (action : JsVal) (args : list JsVal) :
  respects grows (commandHandler action args).
Proof. unfold commandHandler, command_cases. grows_walk. Qed.

Lemma grows_execRequestAction (action : JsVal) (args : list JsVal) :
  respects grows (execRequestAction action args).
Proof. unfold execRequestAction, request_action_cases. grows_walk. Qed.

Lemma grows_updateEventHandler (msg : list JsVal) :
  respects grows (updateEventHandler msg).
Proof. unfold updateEventHandler. grows_walk. Qed.

Lemma grows_beforeUnloadWindow : respects grows beforeUnloadWindow.
Proof. unfold beforeUnloadWindow. grows_walk. Qed.

Lemma grows__themePreviewHandler (stylesMap : JsVal) :
  respects grows (_themePreviewHandler stylesMap).
Proof.
  intros w. unfold exec, _themePreviewHandler, bind, get. cbn.
  destruct (themeLoader w); [|apply grows_refl].
  cbn. constructor; cbn; solve [apply extends_refl | reflexivity].
Qed.

Lemma grows_initApp_then (p : Promise) : respects grows (initApp_then p).
Proof.
  destruct p; try (unfold initApp_then; grows_walk).
  intros w. unfold exec. cbn.
  assert (H : respects grows (let! f := initConfig_prop "themeFile" in loadTheme f))
    by grows_walk.
  specialize (H w). unfold exec in H.
  by destruct ((let! f := initConfig_prop "themeFile" in loadTheme f) w) as [w' [a|e]].
Qed.

Lemma grows_initApp_catch (p : Promise) : respects grows (initApp_catch p).
Proof. unfold initApp_catch. grows_walk. Qed.

Lemma grows_stateInfo_then (p : Promise) : respects grows (stateInfo_then p).
Proof. unfold stateInfo_then. grows_walk. Qed.

Lemma grows_after_createApp (p : Promise) : respects grows (after_createApp p).
Proof.
  unfold after_createApp.
  apply (respects_bind grows grows_trans); [apply grows_initApp_then|intros p1].
  apply (respects_bind grows grows_trans); [apply grows_initApp_catch|intros p2].
  apply grows_stateInfo_then.
Qed.

Lemma grows_after_loadTheme (p : Promise) : respects grows (after_loadTheme p).
Proof.
  unfold after_loadTheme.
  apply (respects_bind grows grows_trans); [apply grows_initApp_catch|intros p2].
  apply grows_stateInfo_then.
Qed.

Lemma grows_resume (i : nat) (c : M Promise) :
  respects grows c -> respects grows (resume i c).
Proof.
  intros Hc. unfold resume.
  apply (respects_bind grows grows_trans); [exact Hc|intros p].
  apply respects_modify. grows_update.
Qed.

Lemma grows__stateInfoHandler (info : JsVal) : respects grows (_stateInfoHandler info).
Proof.
  unfold _stateInfoHandler.
  destruct (if falsy info then VObj ∅ else info);
    try (apply (respects_throw grows grows_refl)).
  repeat (apply (respects_bind grows grows_trans);
          [apply respects_modify; intros w; try destruct (ArcConfig w); grows_update
          |intros _]).
  apply (respects_bind grows grows_trans).
  - unfold initApp.
    repeat (apply (respects_bind grows grows_trans); [|intros ?]);
      try apply grows_initApp_then; try apply grows_initApp_catch.
    all: unfold _createApp; grows_walk.
  - intros p. apply (respects_bind grows grows_trans); [apply grows_stateInfo_then|].
    intros p'. apply respects_modify. grows_update.
Qed.

Lemma grows_handle (ev : Event) : respects grows (handle ev).
Proof.
  destruct ev; cbn [handle].
  - apply grows__stateInfoHandler.
  - apply grows_commandHandler.
  - apply grows_execRequestAction.
  - apply grows__themePreviewHandler.
  - apply grows_updateEventHandler.
  - apply grows_beforeUnloadWindow.
  - apply grows_resume, (respects_bind grows grows_trans);
      [unfold createApp_then_import; grows_walk | apply grows_after_createApp].
  - apply grows_resume, (respects_bind grows grows_trans);
      [unfold createApp_catch; grows_walk | apply grows_after_createApp].
  - apply grows_resume, (respects_bind grows grows_trans);
      [|apply grows_after_createApp].
    apply respects_attempt. unfold createApp_then_attach, _setupApp. grows_walk.
  - apply grows_resume, (respects_bind grows grows_trans);
      [unfold polymer_reject; grows_walk | apply grows_after_createApp].
  - apply grows_resume, grows_after_loadTheme.
  - apply grows_resume, grows_after_loadTheme.
Qed.

Lemma grows_step (w : World) (ev : Event) : grows w (step w ev).
Proof.
  unfold step. destruct (enabled w ev); [apply grows_handle | apply grows_refl].
Qed.

Lemma grows_run (w : World) (evs : list Event) : grows w (run w evs).
Proof.
  apply (run_invariant (grows w)); [|apply grows_refl].
  intros w' ev Hw'. eapply grows_trans; [exact Hw'|apply grows_step].
Qed.

(** ** The routers on the names they know *)

Lemma commandHandler_unfold (w : World) (action : JsVal) (args : list JsVal) :
  commandHandler action args w
  = switch action (command_cases (app w) args) (ret tt)
      (exec (log "Renderer command handled: ") w).
Proof. reflexivity. Qed.

Lemma execRequestAction_unfold (w : World) (action : JsVal) (args : list JsVal) :
  execRequestAction action args w
  = switch action (request_action_cases (app w) args)
      (throw (Error ("Unrecognized action " +:+ to_string action)))
      (exec (log "Renderer request command handled: ") w).
Proof. reflexivity. Qed.

Lemma app_update_app (w : World) (el : ArcElectron) (f : ArcElectron -> ArcElectron) :
  app w = Some el -> (forall e, el_id (f e) = el_id e) ->
  app (set_body (update_app f (body w)) w) = Some (f el).
Proof.
  intros Happ Hid. unfold app in *. cbn. rewrite find_update_app by assumption.
  by rewrite Happ.
Qed.

(** Breaks membership in a concrete list into its cases. *)
Ltac elem_cases H :=
  repeat (apply elem_of_cons in H as [H|H]; [|]);
  [..| by apply elem_of_nil in H].

(** X1.  Each of the fifteen commands that stand for one method of the
    application element, dispatched while the element is in the document,
    returns normally, calls that method and no other on the element (its
    other fields stay as they were), whatever arguments came with the
    command, and sends nothing. *)
Theorem commandHandler_calls_one_method (w : World) (el : ArcElectron)
    (name : string) (method : ShellCall) (args : list JsVal) :
  (name, method) ∈ shell_commands -> app w = Some el ->
  commandHandler (VStr name) args w
    = (set_body (update_app (record_call method) (body w))
         (exec (log "Renderer command handled: ") w), Ok tt) /\
  app (exec (commandHandler (VStr name) args) w) = Some (record_call method el) /\
  invoked (record_call method el) = invoked el ++ [method] /\
  sent (exec (commandHandler (VStr name) args) w) = sent w.
Proof.
  intros Hin Happ.
  assert (Hrun : commandHandler (VStr name) args w
                 = (set_body (update_app (record_call method) (body w))
                      (exec (log "Renderer command handled: ") w), Ok tt)).
  { rewrite commandHandler_unfold, Happ.
    elem_cases Hin; injection Hin as -> ->; reflexivity. }
  split; [exact Hrun|].
  assert (Hex : exec (commandHandler (VStr name) args) w
                = set_body (update_app (record_call method) (body w))
                    (exec (log "Renderer command handled: ") w))
    by (unfold exec at 1; by rewrite Hrun).
  rewrite Hex. split; [|split; reflexivity].
  apply (app_update_app (exec (log "Renderer command handled: ") w) el);
    [exact Happ | by intros []].
Qed.

Lemma commandHandler_calls_one_method_witness :
  let w := run initScript [window_state_info VUndefined; import_load 0; polymer_loaded 0] in
  invoked <$> app (exec (commandHandler (VStr "open-drive") [VNum 3]) w)
    = Some [initApplication; openDrivePicker].
Proof.
  intros w.
  assert (Happ : app w = Some (record_call initApplication
                    (set_componentsDir VUndefined (set_el_id "app" createElement_arc_electron))))
    by reflexivity.
  assert (Hin : ("open-drive", openDrivePicker) ∈ shell_commands).
  { unfold shell_commands. do 7 apply list_elem_of_further. apply list_elem_of_here. }
  destruct (commandHandler_calls_one_method w _ "open-drive" openDrivePicker [VNum 3]
              Hin Happ) as (_ & -> & _).
  reflexivity.
Defined.

(** X2.  The five request actions, dispatched while the application
    element is in the document, each make exactly one call on it and send
    nothing: [save] calls [saveOpened] with [{source: 'shortcut'}], [save-as]
    calls it with no argument, [update-request] passes on its first two
    arguments (missing ones as [undefined]), and the other two take none. *)
Theorem execRequestAction_calls_one_method (w : World) (el : ArcElectron)
    (name : string) (method : ShellCall) (args : list JsVal) :
  (name, method) ∈ request_actions args -> app w = Some el ->
  execRequestAction (VStr name) args w
    = (set_body (update_app (record_call method) (body w))
         (exec (log "Renderer request command handled: ") w), Ok tt) /\
  app (exec (execRequestAction (VStr name) args) w) = Some (record_call method el) /\
  invoked (record_call method el) = invoked el ++ [method] /\
  sent (exec (execRequestAction (VStr name) args) w) = sent w.
Proof.
  intros Hin Happ.
  assert (Hrun : execRequestAction (VStr name) args w
                 = (set_body (update_app (record_call method) (body w))
                      (exec (log "Renderer request command handled: ") w), Ok tt)).
  { rewrite execRequestAction_unfold, Happ.
    elem_cases Hin; injection Hin as -> ->; reflexivity. }
  split; [exact Hrun|].
  assert (Hex : exec (execRequestAction (VStr name) args) w
                = set_body (update_app (record_call method) (body w))
                    (exec (log "Renderer request command handled: ") w))
    by (unfold exec at 1; by rewrite Hrun).
  rewrite Hex. split; [|split; reflexivity].
  apply (app_update_app (exec (log "Renderer request command handled: ") w) el);
    [exact Happ | by intros []].
Qed.

Lemma execRequestAction_calls_one_method_witness :
  let w := run initScript [window_state_info VUndefined; import_load 0; polymer_loaded 0] in
  invoked <$> app (exec (execRequestAction (VStr "update-request") [VNum 3]) w)
    = Some [initApplication; updateRequestTab (VNum 3) VUndefined].
Proof.
  intros w.
  assert (Happ : app w = Some (record_call initApplication
                    (set_componentsDir VUndefined (set_el_id "app" createElement_arc_electron))))
    by reflexivity.
  assert (Hin : ("update-request", updateRequestTab (VNum 3) VUndefined)
                ∈ request_actions [VNum 3]).
  { unfold request_actions. do 4 apply list_elem_of_further. apply list_elem_of_here. }
  destruct (execRequestAction_calls_one_method w _ "update-request" _ [VNum 3]
              Hin Happ) as (_ & -> & _).
  reflexivity.
Defined.

Lemma sendTabsCount_without_app (w : World) (callId : JsVal) :
  app w = None -> sendTabsCount callId w = (w, Throw (TypeError "getTabsCount")).
Proof. intros Happ. cbv [sendTabsCount bind this_app call on_app throw]. by rewrite Happ. Qed.

Lemma getRequestData_without_app (w : World) (callId tabId : JsVal) :
  app w = None -> getRequestData callId tabId w = (w, Throw (TypeError "workspace")).
Proof. intros Happ. cbv [getRequestData bind this_app throw]. by rewrite Happ. Qed.

Lemma recognised_elem (names : list string) (v : JsVal) :
  recognised names v = true -> exists s, v = VStr s /\ s ∈ names.
Proof.
  destruct v as [| | | |s|]; try discriminate. cbn.
  intros H%bool_decide_eq_true. by exists s.
Qed.

(** X3.  While no element with id [app] is in the document (before the
    chain has attached it), every one of the eighteen recognised commands
    throws a [TypeError]: the handler has only written its log line, no
    reply is sent and the document is untouched. *)
Theorem commandHandler_without_app_throws (w : World) (action : JsVal)
    (args : list JsVal) :
  recognised command_names action = true -> app w = None ->
  exists member,
    commandHandler action args w
    = (exec (log "Renderer command handled: ") w, Throw (TypeError member)).
Proof.
  intros (s & -> & Hin)%recognised_elem Happ.
  rewrite commandHandler_unfold, Happ.
  assert (Happ' : app (exec (log "Renderer command handled: ") w) = None) by exact Happ.
  unfold command_names in Hin.
  elem_cases Hin; subst s;
    first [ by eexists
          | eexists; by apply sendTabsCount_without_app
          | eexists; by apply activateTab_without_app
          | eexists; by apply getRequestData_without_app ].
Qed.

Lemma commandHandler_without_app_throws_witness :
  exists member,
    commandHandler (VStr "get-tabs-count") [VNum 1] initScript
    = (exec (log "Renderer command handled: ") initScript, Throw (TypeError member)).
Proof.
  apply (commandHandler_without_app_throws initScript (VStr "get-tabs-count") [VNum 1]);
    reflexivity.
Defined.

(** X4.  While no element with id [app] is in the document, a recognised
    request action throws a [TypeError] (not the "Unrecognized action"
    error), after the log line and without any other effect. *)
Theorem execRequestAction_without_app_throws (w : World) (action : JsVal)
    (args : list JsVal) :
  recognised request_action_names action = true -> app w = None ->
  exists member,
    execRequestAction action args w
    = (exec (log "Renderer request command handled: ") w, Throw (TypeError member)).
Proof.
  intros (s & -> & Hin)%recognised_elem Happ.
  rewrite execRequestAction_unfold, Happ.
  unfold request_action_names in Hin.
  elem_cases Hin; subst s; by eexists.
Qed.

Lemma execRequestAction_without_app_throws_witness :
  exists member,
    execRequestAction (VStr "save") [] initScript
    = (exec (log "Renderer request command handled: ") initScript,
       Throw (TypeError member)).
Proof.
  apply (execRequestAction_without_app_throws initScript (VStr "save") []); reflexivity.
Defined.

(** ** The remote calls that return a value *)

(** X5.  With the application element in the document, the command
    [get-tabs-count] returns normally and sends exactly one message, on
    [current-tabs-count] through the sender of the event: the first argument
    of the command (read as the call identifier; [undefined] when the command
    came without one), [false], and what [getTabsCount()] returned.  On the
    element only that call is recorded. *)
Theorem tabs_count_reply (w : World) (el : ArcElectron) (args : list JsVal) :
  app w = Some el ->
  outcome (commandHandler (VStr "get-tabs-count") args) w = Ok tt /\
  sent (exec (commandHandler (VStr "get-tabs-count") args) w)
    = sent w ++ [mkSent e_sender "current-tabs-count"
                   [arg args 0; VBool false; tabsCount el]] /\
  app (exec (commandHandler (VStr "get-tabs-count") args) w)
    = Some (record_call getTabsCount el).
Proof.
  intros Happ.
  assert (Hrun : commandHandler (VStr "get-tabs-count") args w
            = (set_sent (sent w ++ [mkSent e_sender "current-tabs-count"
                                      [arg args 0; VBool false; tabsCount el]])
                 (set_body (update_app (record_call getTabsCount) (body w))
                    (exec (log "Renderer command handled: ") w)), Ok tt)).
  { rewrite commandHandler_unfold.
    change (switch (VStr "get-tabs-count") (command_cases (app w) args) (ret ()))
      with (sendTabsCount (arg args 0)).
    cbv [sendTabsCount bind this_app call on_app send modify].
    change (app (exec (log "Renderer command handled: ") w)) with (app w).
    by rewrite Happ. }
  split; [unfold outcome; by rewrite Hrun|].
  replace (exec (commandHandler (VStr "get-tabs-count") args) w)
    with (fst (commandHandler (VStr "get-tabs-count") args w)) by reflexivity.
  rewrite Hrun. cbn [fst]. split; [reflexivity|].
  apply (app_update_app (exec (log "Renderer command handled: ") w) el);
    [exact Happ | by intros []].
Qed.

Lemma tabs_count_reply_witness :
  let w := run initScript [window_state_info VUndefined; import_load 0; polymer_loaded 0] in
  sent (exec (commandHandler (VStr "get-tabs-count") [VNum 9]) w)
    = sent w ++ [mkSent e_sender "current-tabs-count" [VNum 9; VBool false; VNum 0]].
Proof.
  intros w.
  assert (Happ : app w = Some (record_call initApplication
                    (set_componentsDir VUndefined (set_el_id "app" createElement_arc_electron))))
    by reflexivity.
  destruct (tabs_count_reply w _ [VNum 9] Happ) as (_ & -> & _). reflexivity.
Defined.

(** X6.  With the application element in the document, the command
    [get-request-data] returns normally, changes nothing in the document, and
    sends exactly one message, on [request-data]: the call identifier,
    [false], and the entry of [workspace.activeRequests] under the tab
    identifier.  For a tab that has no entry the payload is [undefined] and
    the error flag is still [false]. *)
Theorem request_data_reply (w : World) (el : ArcElectron) (args : list JsVal) :
  app w = Some el ->
  outcome (commandHandler (VStr "get-request-data") args) w = Ok tt /\
  sent (exec (commandHandler (VStr "get-request-data") args) w)
    = sent w ++ [mkSent e_sender "request-data"
                   [arg args 0; VBool false;
                    default VUndefined (activeRequests el !! to_string (arg args 1))]] /\
  body (exec (commandHandler (VStr "get-request-data") args) w) = body w.
Proof.
  intros Happ.
  assert (Hrun : commandHandler (VStr "get-request-data") args w
            = (set_sent (sent w ++ [mkSent e_sender "request-data"
                 [arg args 0; VBool false;
                  default VUndefined (activeRequests el !! to_string (arg args 1))]])
                 (exec (log "Renderer command handled: ") w), Ok tt)).
  { rewrite commandHandler_unfold.
    change (switch (VStr "get-request-data") (command_cases (app w) args) (ret ()))
      with (getRequestData (arg args 0) (arg args 1)).
    cbv [getRequestData bind this_app send modify].
    change (app (exec (log "Renderer command handled: ") w)) with (app w).
    by rewrite Happ. }
  split; [unfold outcome; by rewrite Hrun|].
  replace (exec (commandHandler (VStr "get-request-data") args) w)
    with (fst (commandHandler (VStr "get-request-data") args w)) by reflexivity.
  by rewrite Hrun.
Qed.

Lemma request_data_reply_witness :
  let w := run initScript [window_state_info VUndefined; import_load 0; polymer_loaded 0] in
  sent (exec (commandHandler (VStr "get-request-data") [VNum 9; VNum 4]) w)
    = sent w ++ [mkSent e_sender "request-data" [VNum 9; VBool false; VUndefined]].
Proof.
  intros w.
  assert (Happ : app w = Some (record_call initApplication
                    (set_componentsDir VUndefined (set_el_id "app" createElement_arc_electron))))
    by reflexivity.
  destruct (request_data_reply w _ [VNum 9; VNum 4] Happ) as (_ & -> & _). reflexivity.
Defined.

(** ** Update messages *)

(** X7.  With the application element in the document, an update message
    is stored whole in [updateState] of the element; [hasAppUpdate] becomes
    [true] when the first entry of the message is the string
    [update-downloaded] and is left as it was otherwise (it is never set back
    to [false]).  Nothing is sent. *)
Theorem updateEventHandler_stores_message (w : World) (el : ArcElectron)
    (msg : list JsVal) :
  app w = Some el ->
  outcome (updateEventHandler msg) w = Ok tt /\
  (exists el', app (exec (updateEventHandler msg) w) = Some el' /\
     updateState el' = Some msg /\
     hasAppUpdate el'
       = (hasAppUpdate el || strict_eq_str (arg msg 0) "update-downloaded") /\
     invoked el' = invoked el /\ selected el' = selected el) /\
  sent (exec (updateEventHandler msg) w) = sent w.
Proof.
  intros Happ.
  set (w0 := exec (log "updateEventHandler") w).
  set (w1 := set_body (update_app (set_updateState msg) (body w0)) w0).
  assert (Happ1 : app w1 = Some (set_updateState msg el)).
  { apply (app_update_app w0 el); [exact Happ | by intros []]. }
  destruct (strict_eq_str (arg msg 0) "update-downloaded") eqn:Hdl.
  - assert (Hrun : updateEventHandler msg w
              = (set_body (update_app (set_hasAppUpdate true) (body w1)) w1, Ok tt)).
    { cbv [updateEventHandler bind this_app on_app log modify]. rewrite Happ, Hdl.
      reflexivity. }
    unfold outcome, exec. rewrite Hrun. cbn [fst snd]. repeat split.
    exists (set_hasAppUpdate true (set_updateState msg el)).
    split; [apply (app_update_app w1 _ _ Happ1); by intros []|].
    cbn. by rewrite orb_true_r.
  - assert (Hrun : updateEventHandler msg w = (w1, Ok tt)).
    { cbv [updateEventHandler bind this_app on_app log modify ret]. rewrite Happ, Hdl.
      reflexivity. }
    unfold outcome, exec. rewrite Hrun. cbn [fst snd]. repeat split.
    exists (set_updateState msg el). split; [exact Happ1|].
    cbn. by rewrite orb_false_r.
Qed.

Lemma updateEventHandler_stores_message_witness :
  let w := run initScript [window_state_info VUndefined; import_load 0; polymer_loaded 0] in
  outcome (updateEventHandler [VStr "update-downloaded"; VStr "1.2.3"]) w = Ok tt.
Proof.
  intros w.
  assert (Happ : app w = Some (record_call initApplication
                    (set_componentsDir VUndefined (set_el_id "app" createElement_arc_electron))))
    by reflexivity.
  apply (updateEventHandler_stores_message w _ _ Happ).
Defined.

(** ** What holds in every state the script can reach *)

(** X8.  The ten bindings [listen] makes are the bindings for good: after
    any sequence of events the table is the one [listen] left, its channel
    names are distinct, each is bound to the handler [listen] gave it, and
    [window.onbeforeunload] is still set. *)
Theorem bindings_are_fixed (evs : list Event) :
  subscriptions (run initScript evs) = listen_bindings /\
  NoDup (fst <$> listen_bindings) /\
  (forall ch h, (ch, h) ∈ listen_bindings -> bound (run initScript evs) ch = Some h) /\
  onbeforeunload (run initScript evs) = true.
Proof.
  assert (Hsub : subscriptions (run initScript evs) = listen_bindings)
    by (by rewrite subscriptions_run).
  split; [exact Hsub|]. split; [|split].
  - apply (bool_decide_unpack _). reflexivity.
  - intros ch h Hin. unfold bound. rewrite Hsub.
    unfold listen_bindings in Hin. elem_cases Hin; injection Hin as -> ->; reflexivity.
  - by rewrite (grows_onbeforeunload _ _ (grows_run initScript evs)).
Qed.

Lemma outbound_not_request (m : Sent) :
  outbound m = true -> channel m <> "window-state-request".
Proof.
  unfold outbound. intros Hin%bool_decide_eq_true Heq. rewrite Heq in Hin.
  unfold outbound_channels in Hin. elem_cases Hin; discriminate.
Qed.

(** X9.  [window-state-request] is the first message the script sends and
    the only one of its kind: whatever events follow, every later message is
    on [fatal-error], [window-reloading], [current-tabs-count],
    [tab-activated] or [request-data], and no message once sent is taken
    back. *)
Theorem window_state_request_sent_once (evs : list Event) :
  exists later,
    sent (run initScript evs) = mkSent ipc "window-state-request" [] :: later /\
    Forall (fun m => channel m ∈ outbound_channels) later /\
    filter (fun m => channel m = "window-state-request") (sent (run initScript evs))
      = [mkSent ipc "window-state-request" []].
Proof.
  destruct (grows_sent _ _ (grows_run initScript evs)) as (later & Hs & Hl).
  exists later. split; [exact Hs|]. split.
  - eapply Forall_impl; [exact Hl|]. intros m Hm. by apply bool_decide_eq_true in Hm.
  - assert (Hnone : filter (fun m => channel m = "window-state-request") later = []).
    { clear Hs. induction Hl as [|m l Hm _ IH]; [reflexivity|].
      rewrite filter_cons_False; [exact IH|]. by apply outbound_not_request. }
    rewrite Hs, filter_app, Hnone. reflexivity.
Qed.

(** X10.  The application component is only ever imported from
    [src/arc-electron.html]: after any sequence of events, with whatever
    payloads, every call made to [Polymer.importHref] has that path; and
    [previewThemes] has never been called on the theme manager. *)
Theorem polymer_import_path_is_fixed (evs : list Event) :
  Forall (fun href => href = "src/arc-electron.html")
         (polymer_imports (run initScript evs)) /\
  previewThemes_calls (themeManager (run initScript evs)) = [].
Proof.
  pose proof (grows_run initScript evs) as [].
  split.
  - eapply extends_Forall; [eassumption|]. constructor.
  - by rewrite grows_previews0.
Qed.

(** X11.  In every state the script can reach, the [beforeunload] event of
    the window sends exactly one [window-reloading] message, with no payload,
    and changes nothing else. *)
Theorem beforeunload_notifies (evs : list Event) :
  step (run initScript evs) beforeunload
  = set_sent (sent (run initScript evs) ++ [mkSent ipc "window-reloading" []])
             (run initScript evs).
Proof.
  unfold step. cbn [enabled].
  rewrite (grows_onbeforeunload _ _ (grows_run initScript evs)). reflexivity.
Qed.

(** ** Elements, chains and the flag *)

Lemma filter_importing_insert (l : list Stage) (i : nat) (s s' : Stage) :
  l !! i = Some s ->
  length (List.filter importing (<[ i := s' ]> l)) + (if importing s then 1 else 0)
  = length (List.filter importing l) + (if importing s' then 1 else 0).
Proof.
  revert i. induction l as [|x l IH]; intros [|i] Hi; try discriminate.
  - injection Hi as ->. simpl. destruct (importing s), (importing s'); simpl; lia.
  - simpl in Hi. specialize (IH i Hi). simpl. destruct (importing x); simpl; lia.
Qed.

Lemma shells_attach (els : list ArcElectron) (el : ArcElectron) :
  is_app el = true ->
  length (filter (fun e => is_app e = true) (els ++ [el]))
  = S (length (filter (fun e => is_app e = true) els)).
Proof.
  intros Hel. rewrite filter_app, length_app, filter_cons_True by assumption.
  cbn. lia.
Qed.

Lemma chains_bound_step (w : World) (ev : Event) :
  shells w + importing_chains w <= length (chains w) ->
  shells (step w ev) + importing_chains (step w ev) <= length (chains (step w ev)).
Proof.
  intros Hw. unfold importing_chains, shells in *.
  destruct (step_transition w ev)
    as [[]|o []|i s s' Hi Hs Himp Hch Hcr Hb|i el _ Hi Hch Hcr Hel Hb].
  - unfold shells in *. congruence.
  - rewrite boot_body0, boot_chains0, List.filter_app, !length_app.
    destruct (created w); cbn; lia.
  - rewrite Hb, Hch, length_insert.
    pose proof (filter_importing_insert (chains w) i s s' Hi) as Hcount.
    destruct (importing s'); [rewrite Himp in Hcount by done|]; lia.
  - rewrite Hb, Hch, length_insert, shells_attach by assumption.
    pose proof (filter_importing_insert (chains w) i _ AwaitTheme Hi) as Hcount.
    cbn in Hcount. lia.
Qed.

(** X12.  However the events interleave, the application elements in the
    document plus the chains that have not yet reached the attach callback
    never outnumber the chains started: there is at most one application
    element for each bootstrap the handler went through. *)
Theorem at_most_one_shell_per_bootstrap (evs : list Event) :
  shells (run initScript evs) + importing_chains (run initScript evs)
    <= length (chains (run initScript evs)) /\
  shells (run initScript evs) <= length (chains (run initScript evs)).
Proof.
  assert (H : shells (run initScript evs) + importing_chains (run initScript evs)
              <= length (chains (run initScript evs))).
  { apply (run_invariant
             (fun w => shells w + importing_chains w <= length (chains w))).
    - intros w ev. apply chains_bound_step.
    - cbn. lia. }
  split; [exact H | lia].
Qed.

Lemma app_None_shells (w : World) : app w = None <-> shells w = 0.
Proof.
  unfold app, shells. induction (body w) as [|el els IH]; [done|].
  cbn [List.find]. destruct (is_app el) eqn:Hel.
  - rewrite filter_cons_True by assumption. done.
  - rewrite filter_cons_False by congruence. exact IH.
Qed.

Lemma created_shells_step (w : World) (ev : Event) :
  (created w = true <-> 0 < shells w) ->
  (created (step w ev) = true <-> 0 < shells (step w ev)).
Proof.
  intros Hw.
  destruct (step_transition w ev)
    as [[]|o []|i s s' Hi Hs Himp Hch Hcr Hb|i el _ Hi Hch Hcr Hel Hb].
  - by rewrite stable_created0, stable_shells0.
  - unfold shells in *. by rewrite boot_created0, boot_body0.
  - unfold shells in *. by rewrite Hcr, Hb.
  - unfold shells. rewrite Hcr, Hb, shells_attach by assumption. split; [lia|done].
Qed.

Lemma created_shells_run (evs : list Event) :
  created (run initScript evs) = true <-> 0 < shells (run initScript evs).
Proof.
  apply (run_invariant (fun w => created w = true <-> 0 < shells w)).
  - intros w ev. apply created_shells_step.
  - cbn. split; [discriminate | lia].
Qed.

(** X13.  In every state the script can reach, [created] is [true]
    exactly when [document.getElementById('app')] finds an element. *)
Theorem created_iff_app_exists (evs : list Event) :
  created (run initScript evs) = true <-> is_Some (app (run initScript evs)).
Proof.
  rewrite created_shells_run.
  pose proof (app_None_shells (run initScript evs)) as Hnone.
  destruct (app (run initScript evs)) as [el|].
  - split; [by eexists|]. intros _.
    destruct (shells (run initScript evs)); [|lia].
    by destruct Hnone as [_ Hnone]; specialize (Hnone eq_refl).
  - split; [|by intros [? ?]]. intros Hpos.
    destruct Hnone as [Hnone _]. specialize (Hnone eq_refl). lia.
Qed.

(** X14.  Once the chain has attached an element and every chain has left
    the import stages, no sequence of events, bootstraps included, adds or
    removes an application element, and that situation persists. *)
Theorem single_shell_is_kept (w : World) (evs : list Event) :
  created w = true -> Forall (fun s => importing s = false) (chains w) ->
  shells (run w evs) = shells w /\
  created (run w evs) = true /\
  Forall (fun s => importing s = false) (chains (run w evs)).
Proof.
  intros Hc Hq. destruct (quiet_run w evs (conj Hc Hq)) as [[Hc' Hq'] Hs]. done.
Qed.

Lemma single_shell_is_kept_witness :
  let w := run initScript [window_state_info VUndefined; import_load 0; polymer_loaded 0] in
  shells (run w [window_state_info VNull; theme_loaded 1; window_state_info VNull]) = 1.
Proof.
  intros w.
  assert (Hc : created w = true) by reflexivity.
  assert (Hq : Forall (fun s => importing s = false) (chains w))
    by (repeat constructor).
  destruct (single_shell_is_kept w
              [window_state_info VNull; theme_loaded 1; window_state_info VNull] Hc Hq)
    as [-> _].
  reflexivity.
Defined.








(** ** The bootstrap handler on every payload *)

(** X16.  For every object payload the stored workspace index is the
    payload's own when that is truthy and [0] when it is missing or falsy
    ([0], [null], [false], the empty string); so a stored index that is falsy
    is [0].  The config kept on the bridge and in [window.ArcConfig] is the
    payload with that index, every other property as it came. *)
Theorem workspaceIndex_is_normalised (w : World) (o : gmap string JsVal) :
  workspaceIndex (exec (_stateInfoHandler (VObj o)) w)
    = (if falsy (prop o "workspaceIndex") then VNum 0 else prop o "workspaceIndex") /\
  (falsy (workspaceIndex (exec (_stateInfoHandler (VObj o)) w)) = true ->
   workspaceIndex (exec (_stateInfoHandler (VObj o)) w) = VNum 0) /\
  exists cfg,
    initConfig (exec (_stateInfoHandler (VObj o)) w) = Some cfg /\
    ArcConfig (exec (_stateInfoHandler (VObj o)) w) = Some (Some cfg) /\
    prop cfg "workspaceIndex" = workspaceIndex (exec (_stateInfoHandler (VObj o)) w) /\
    forall k, k <> "workspaceIndex" -> cfg !! k = o !! k.
Proof.
  destruct (stateInfoHandler_object w o) as (w' & Hrun & Hb).
  unfold exec. rewrite Hrun. cbn [fst]. destruct Hb.
  assert (Hidx : prop (default_workspaceIndex o) "workspaceIndex"
                 = if falsy (prop o "workspaceIndex") then VNum 0
                   else prop o "workspaceIndex").
  { unfold default_workspaceIndex.
    destruct (falsy (prop o "workspaceIndex")); [|reflexivity].
    unfold prop. by rewrite lookup_insert_eq. }
  rewrite boot_workspaceIndex0, Hidx. split; [reflexivity|]. split.
  - destruct (falsy (prop o "workspaceIndex")) eqn:Hf; [reflexivity | congruence].
  - exists (default_workspaceIndex o). repeat split; try assumption.
    intros k Hk. unfold default_workspaceIndex.
    destruct (falsy (prop o "workspaceIndex")); [|reflexivity].
    by rewrite lookup_insert_ne.
Qed.

(** X17.  A payload that is neither falsy nor an object (a number other
    than [0], a non-empty string, [true]) makes the handler throw on the
    write to [workspaceIndex]: nothing is stored, no chain is started, and
    the world after the event is the world before it. *)
Theorem primitive_payload_is_rejected (w : World) (info : JsVal) :
  falsy info = false -> (forall o, info <> VObj o) ->
  outcome (_stateInfoHandler info) w = Throw (TypeError "workspaceIndex") /\
  step w (window_state_info info) = w.
Proof.
  intros Hf Hno. pose proof (stateInfoHandler_primitive w info Hf Hno) as Hrun.
  split; [unfold outcome; by rewrite Hrun|].
  unfold step. destruct (enabled w (window_state_info info)); [|reflexivity].
  unfold handle, exec. by rewrite Hrun.
Qed.

Lemma primitive_payload_is_rejected_witness :
  step initScript (window_state_info (VNum 5)) = initScript.
Proof.
  apply (primitive_payload_is_rejected initScript (VNum 5)); [reflexivity|].
  intros o. discriminate.
Defined.

(** X18.  A bootstrap handled when [created] is already [true] imports
    nothing and attaches nothing: head and body are as before and nothing is
    sent; the workspace manager is rebuilt from the new payload and the theme
    of the new payload is requested at once, the chain waiting for it. *)
Theorem bootstrap_after_creation_reapplies_theme (w : World) (o : gmap string JsVal) :
  created w = true ->
  head (exec (_stateInfoHandler (VObj o)) w) = head w /\
  body (exec (_stateInfoHandler (VObj o)) w) = body w /\
  sent (exec (_stateInfoHandler (VObj o)) w) = sent w /\
  created (exec (_stateInfoHandler (VObj o)) w) = true /\
  loadTheme_calls (themeManager (exec (_stateInfoHandler (VObj o)) w))
    = loadTheme_calls (themeManager w) ++ [prop (default_workspaceIndex o) "themeFile"] /\
  chains (exec (_stateInfoHandler (VObj o)) w) = chains w ++ [AwaitTheme] /\
  wm_index <$> workspaceManager (exec (_stateInfoHandler (VObj o)) w)
    = Some (workspaceIndex (exec (_stateInfoHandler (VObj o)) w)).
Proof.
  intros Hc. destruct (stateInfoHandler_object w o) as (w' & Hrun & Hb).
  unfold exec. rewrite Hrun. cbn [fst]. destruct Hb. rewrite Hc in *.
  repeat split; try assumption; try congruence.
  by rewrite boot_workspaceManager0, boot_workspaceIndex0.
Qed.

Lemma bootstrap_after_creation_reapplies_theme_witness :
  let w := run initScript [window_state_info VUndefined; import_load 0; polymer_loaded 0] in
  chains (exec (_stateInfoHandler (VObj {[ "themeFile" := VStr "dark.css" ]})) w)
    = chains w ++ [AwaitTheme].
Proof.
  intros w.
  apply (bootstrap_after_creation_reapplies_theme w {[ "themeFile" := VStr "dark.css" ]}).
  reflexivity.
Defined.

(** X19.  A bootstrap handled while [created] is [false] adds one import
    link for the payload's [importFile] to the head and waits for it; the
    theme is not requested yet and nothing is attached or sent.  The
    workspace manager gets the stored index, and [filePath] only when the
    payload has a truthy [workspacePath]. *)
Theorem bootstrap_before_creation_starts_import (w : World) (o : gmap string JsVal) :
  created w = false ->
  head (exec (_stateInfoHandler (VObj o)) w)
    = head w ++ [import_link (prop (default_workspaceIndex o) "importFile")] /\
  chains (exec (_stateInfoHandler (VObj o)) w) = chains w ++ [AwaitImport] /\
  loadTheme_calls (themeManager (exec (_stateInfoHandler (VObj o)) w))
    = loadTheme_calls (themeManager w) /\
  body (exec (_stateInfoHandler (VObj o)) w) = body w /\
  sent (exec (_stateInfoHandler (VObj o)) w) = sent w /\
  created (exec (_stateInfoHandler (VObj o)) w) = false /\
  workspaceManager (exec (_stateInfoHandler (VObj o)) w)
    = Some (mkWorkspaceManager
              (workspaceIndex (exec (_stateInfoHandler (VObj o)) w))
              (if falsy (prop o "workspacePath") then ∅
               else {[ "filePath" := prop o "workspacePath" ]})
              true).
Proof.
  intros Hc. destruct (stateInfoHandler_object w o) as (w' & Hrun & Hb).
  unfold exec. rewrite Hrun. cbn [fst]. destruct Hb. rewrite Hc in *.
  repeat split; try assumption; try congruence.
  rewrite boot_workspaceManager0, boot_workspaceIndex0. do 2 f_equal.
  assert (Hp : prop (default_workspaceIndex o) "workspacePath" = prop o "workspacePath").
  { unfold default_workspaceIndex. destruct (falsy (prop o "workspaceIndex")); [|done].
    unfold prop. by rewrite lookup_insert_ne. }
  unfold workspace_opts. by rewrite Hp.
Qed.

Lemma bootstrap_before_creation_starts_import_witness :
  head (exec (_stateInfoHandler (VObj {[ "importFile" := VStr "components.html" ]}))
          initScript)
    = [import_link (VStr "components.html")].
Proof.
  destruct (bootstrap_before_creation_starts_import initScript
              {[ "importFile" := VStr "components.html" ]} eq_refl) as (-> & _).
  reflexivity.
Defined.

(** ** The stages of the chain *)

Lemma find_app_snoc (els : list ArcElectron) (el : ArcElectron) :
  is_app el = true ->
  List.find is_app (els ++ [el]) = Some (default el (List.find is_app els)).
Proof.
  intros Hel. induction els as [|e els IH]; cbn [app List.find].
  - cbn. by rewrite Hel.
  - cbn. destruct (is_app e); [reflexivity | exact IH].
Qed.

(** X20.  When [Polymer.importHref] succeeds for a chain, the callback
    builds an element with id [app], gives it the [appComponents] of the
    config the bridge holds at that moment as [componentsDir], calls
    [initApplication] on it once, appends it to the body and sets [created];
    then the theme of that config is requested and the chain waits for it.
    Nothing is sent.  [document.getElementById('app')] finds the new element
    only when there was none before: an element attached earlier keeps
    answering. *)
Theorem polymer_loaded_attaches_configured_element (w : World) (i : nat)
    (cfg : gmap string JsVal) :
  chains w !! i = Some AwaitPolymer -> initConfig w = Some cfg ->
  body (step w (polymer_loaded i))
    = body w ++ [mkArcElectron "app" (prop cfg "appComponents") VUndefined ∅ (VNum 0)
                   None false [initApplication]] /\
  created (step w (polymer_loaded i)) = true /\
  loadTheme_calls (themeManager (step w (polymer_loaded i)))
    = loadTheme_calls (themeManager w) ++ [prop cfg "themeFile"] /\
  chains (step w (polymer_loaded i)) = <[ i := AwaitTheme ]> (chains w) /\
  sent (step w (polymer_loaded i)) = sent w /\
  app (step w (polymer_loaded i))
    = Some (default (mkArcElectron "app" (prop cfg "appComponents") VUndefined ∅
                       (VNum 0) None false [initApplication]) (app w)).
Proof.
  intros Hi Hcfg.
  assert (Hstep : step w (polymer_loaded i)
            = exec (handle (polymer_loaded i)) w)
    by (unfold step; cbn [enabled]; by rewrite Hi).
  assert (Hb : body (step w (polymer_loaded i))
               = body w ++ [mkArcElectron "app" (prop cfg "appComponents") VUndefined ∅
                              (VNum 0) None false [initApplication]]).
  { rewrite Hstep.
    cbv [handle exec resume bind attempt createApp_then_attach _setupApp
         initConfig_prop get log modify ret after_createApp initApp_then
         initApp_catch stateInfo_then loadTheme].
    cbn. rewrite Hcfg. cbn. rewrite ?Hcfg. reflexivity. }
  split; [exact Hb|].
  split; [|split; [|split; [|split]]].
  5: { unfold app. rewrite Hb. by apply find_app_snoc. }
  all: rewrite Hstep;
    cbv [handle exec resume bind attempt createApp_then_attach _setupApp
         initConfig_prop get log modify ret after_createApp initApp_then
         initApp_catch stateInfo_then loadTheme];
    cbn; rewrite Hcfg; cbn; rewrite ?Hcfg; reflexivity.
Qed.

Lemma polymer_loaded_attaches_configured_element_witness :
  let w := run initScript
             [window_state_info (VObj {[ "appComponents" := VStr "components" ]});
              import_load 0] in
  componentsDir <$> app (step w (polymer_loaded 0)) = Some (VStr "components").
Proof.
  intros w.
  assert (Hi : chains w !! 0 = Some AwaitPolymer) by reflexivity.
  assert (Hcfg : initConfig w
                 = Some (default_workspaceIndex {[ "appComponents" := VStr "components" ]}))
    by reflexivity.
  destruct (polymer_loaded_attaches_configured_element w 0 _ Hi Hcfg)
    as (_ & _ & _ & _ & _ & ->).
  reflexivity.
Defined.

(** X21.  When the theme fails to load for a chain, one message goes out on
    [fatal-error] with the [message] of the cause and the chain is settled;
    the application element stays in the document and [created] is not
    reset.  When the theme loads, the chain is settled and only the console
    line is added. *)
Theorem theme_settles_the_chain (w : World) (i : nat) (cause : JsError) :
  chains w !! i = Some AwaitTheme ->
  sent (step w (theme_failed i cause))
    = sent w ++ [mkSent ipc "fatal-error" [message cause]] /\
  body (step w (theme_failed i cause)) = body w /\
  created (step w (theme_failed i cause)) = created w /\
  chains (step w (theme_failed i cause)) = <[ i := Settled ]> (chains w) /\
  step w (theme_loaded i)
    = set_chains (<[ i := Settled ]> (chains w))
        (set_console (console w ++ ["Application window is now ready."]) w).
Proof.
  intros Hi. unfold step. cbn [enabled]. rewrite Hi. repeat split.
Qed.

Lemma theme_settles_the_chain_witness :
  let w := run initScript [window_state_info VUndefined; import_load 0; polymer_loaded 0] in
  fatal_errors (step w (theme_failed 0 (Error "no such theme")))
    = [[VStr "no such theme"]] /\
  shells (step w (theme_failed 0 (Error "no such theme"))) = 1.
Proof.
  intros w.
  assert (Hi : chains w !! 0 = Some AwaitTheme) by reflexivity.
  destruct (theme_settles_the_chain w 0 (Error "no such theme") Hi)
    as (Hs & Hb & _).
  unfold fatal_errors, shells. rewrite Hs, Hb. split; reflexivity.
Defined.

(** X22.  The [catch] of [initApp] turns the failure into a fulfilled
    promise, so the [then] of the bootstrap handler runs all the same: after
    every failure of the chain (components import, application import, theme)
    the console gets the error and then "Application window is now ready.". *)
Theorem ready_is_logged_after_a_fatal_error (w : World) (i : nat) :
  (chains w !! i = Some AwaitImport ->
   console (step w (import_error i))
     = console w ++ ["Unable to load components import file.";
                     "Application window is now ready."]) /\
  (chains w !! i = Some AwaitPolymer ->
   console (step w (polymer_failed i))
     = console w ++ ["Unable to load ARC app"; "Application window is now ready."]) /\
  (forall cause, chains w !! i = Some AwaitTheme ->
   console (step w (theme_failed i cause))
     = console w ++ [to_string (message cause); "Application window is now ready."]).
Proof.
  repeat split; intros; unfold step; cbn [enabled];
    match goal with H : chains w !! i = _ |- _ => rewrite H end;
    cbn; by rewrite <- app_assoc.
Qed.

Lemma ready_is_logged_after_a_fatal_error_witness :
  let w := run initScript [window_state_info VUndefined] in
  console (step w (import_error 0))
    = console w ++ ["Unable to load components import file.";
                    "Application window is now ready."].
Proof.
  intros w.
  destruct (ready_is_logged_after_a_fatal_error w 0) as (H & _).
  apply H. reflexivity.
Defined.

(** X23.  A failed components import is not held against the next
    bootstrap: [created] is still [false], so the bootstrap that follows the
    failure starts a new chain, with a new import link for its own
    [importFile], beside the settled one. *)
Theorem bootstrap_after_failure_retries (w : World) (i : nat) (o : gmap string JsVal) :
  chains w !! i = Some AwaitImport -> created w = false ->
  bound w "window-state-info" = Some stateInfoHandler_h ->
  created (step (step w (import_error i)) (window_state_info (VObj o))) = false /\
  chains (step (step w (import_error i)) (window_state_info (VObj o)))
    = <[ i := Settled ]> (chains w) ++ [AwaitImport] /\
  head (step (step w (import_error i)) (window_state_info (VObj o)))
    = head w ++ [import_link (prop (default_workspaceIndex o) "importFile")].
Proof.
  intros Hi Hc Hb.
  destruct (import_error_aborts w i Hi).
  assert (Hb1 : bound (step w (import_error i)) "window-state-info"
                = Some stateInfoHandler_h).
  { unfold bound in *. by rewrite subscriptions_step. }
  destruct (bootstrap_step (step w (import_error i)) o Hb1).
  rewrite aborted_created0, Hc in *.
  rewrite boot_created0, boot_chains0, boot_head0, aborted_chain0, aborted_head0.
  done.
Qed.

Lemma bootstrap_after_failure_retries_witness :
  let w := run initScript [window_state_info VUndefined] in
  chains (step (step w (import_error 0)) (window_state_info (VObj ∅)))
    = [Settled; AwaitImport].
Proof.
  intros w.
  destruct (bootstrap_after_failure_retries w 0 ∅ eq_refl eq_refl eq_refl)
    as (_ & -> & _).
  reflexivity.
Defined.

(** X24.  The chain runs its stages in order, for every object payload.
    After the bootstrap only the import link is in place; the application
    import starts when the link has loaded; the element is attached, and the
    theme requested, when the application import has succeeded; when the
    theme has loaded the chain is settled with one application element in the
    document and nothing sent but the opening request. *)
Theorem successful_boot_runs_in_order (o : gmap string JsVal) :
  let cfg := default_workspaceIndex o in
  let boot := window_state_info (VObj o) in
  let w1 := run initScript [boot] in
  let w2 := run initScript [boot; import_load 0] in
  let w3 := run initScript [boot; import_load 0; polymer_loaded 0] in
  let w4 := run initScript [boot; import_load 0; polymer_loaded 0; theme_loaded 0] in
  (head w1 = [import_link (prop cfg "importFile")] /\ polymer_imports w1 = [] /\
   chains w1 = [AwaitImport]) /\
  (polymer_imports w2 = ["src/arc-electron.html"] /\ body w2 = [] /\
   loadTheme_calls (themeManager w2) = [] /\ chains w2 = [AwaitPolymer]) /\
  (shells w3 = 1 /\ created w3 = true /\
   loadTheme_calls (themeManager w3) = [prop cfg "themeFile"] /\
   chains w3 = [AwaitTheme]) /\
  (shells w4 = 1 /\ chains w4 = [Settled] /\
   head w4 = [import_link (prop cfg "importFile")] /\
   polymer_imports w4 = ["src/arc-electron.html"] /\
   loadTheme_calls (themeManager w4) = [prop cfg "themeFile"] /\
   sent w4 = [mkSent ipc "window-state-request" []]).
Proof.
  intros cfg boot w1 w2 w3 w4.
  split; [|split; [|split]].
  - subst w1. split; [|split]; reflexivity.
  - subst w2. split; [|split; [|split]]; reflexivity.
  - subst w3. split; [|split; [|split]]; reflexivity.
  - subst w4. split; [|split; [|split; [|split; [|split]]]]; reflexivity.
Qed.

(** ** Frames, once more: from the field updates to the handlers *)

Section HandlerFrames.

Variable R : World -> World -> Prop.
Hypothesis R_refl : forall w, R w w.
Hypothesis R_trans : forall w1 w2 w3, R w1 w2 -> R w2 w3 -> R w1 w3.

(** The field updates the handlers make, the bootstrap handler's writes of
    the config apart. *)
Hypothesis R_console : forall w l, R w (set_console l w).
Hypothesis R_body : forall w b, R w (set_body b w).
Hypothesis R_head : forall w h, R w (set_head h w).
Hypothesis R_created : forall w b, R w (set_created b w).
Hypothesis R_chains : forall w c, R w (set_chains c w).
Hypothesis R_polymer : forall w p, R w (set_polymer_imports p w).
Hypothesis R_themeManager : forall w t, R w (set_themeManager t w).
Hypothesis R_themeLoader : forall w t, R w (set_themeLoader t w).
Hypothesis R_workspaceManager : forall w m, R w (set_workspaceManager m w).
Hypothesis R_fatal :
  forall w v, R w (set_sent (sent w ++ [mkSent ipc "fatal-error" [v]]) w).
Hypothesis R_reloading :
  forall w, R w (set_sent (sent w ++ [mkSent ipc "window-reloading" []]) w).
Hypothesis R_tabs_count :
  forall w a c,
    R w (set_sent (sent w ++ [mkSent e_sender "current-tabs-count" [a; VBool false; c]]) w).
Hypothesis R_tab_activated :
  forall w a, R w (set_sent (sent w ++ [mkSent e_sender "tab-activated" [a; VBool false]]) w).
Hypothesis R_request_data :
  forall w a d,
    R w (set_sent (sent w ++ [mkSent e_sender "request-data" [a; VBool false; d]]) w).

Ltac frame_update :=
  intros;
  first [ apply R_console | apply R_body | apply R_head | apply R_created
        | apply R_chains | apply R_polymer | apply R_themeManager
        | apply R_themeLoader | apply R_workspaceManager | apply R_fatal
        | apply R_reloading | apply R_tabs_count | apply R_tab_activated
        | apply R_request_data ].

Ltac frame_walk :=
  repeat first
    [ apply (respects_ret R R_refl)
    | apply (respects_throw R R_refl)
    | apply (respects_get R R_refl)
    | apply (respects_this_app R R_refl)
    | apply (respects_initConfig_prop R R_refl)
    | apply (respects_modify R); solve [frame_update]
    | apply (respects_attempt R)
    | apply (respects_bind R R_trans); [|intros ?]
    | apply (respects_switch R);
        [repeat (apply Forall_cons_2 || apply Forall_nil_2); cbn [snd]|]
    | progress unfold call, on_app
    | match goal with
      | |- respects _ (match ?x with _ => _ end) => destruct x
      | |- respects _ (if ?x then _ else _) => destruct x
      end ].

Lemma frame_initApp_then (p : Promise) : respects R (initApp_then p).
Proof.
  destruct p; try (unfold initApp_then; frame_walk).
  intros w. unfold exec. cbn.
  assert (H : respects R (let! f := initConfig_prop "themeFile" in loadTheme f))
    by (unfold loadTheme; frame_walk).
  specialize (H w). unfold exec in H.
  by destruct ((let! f := initConfig_prop "themeFile" in loadTheme f) w) as [w' [a|e]].
Qed.

Lemma frame_initApp_catch (p : Promise) : respects R (initApp_catch p).
Proof. unfold initApp_catch, reportFatalError, log, send. frame_walk. Qed.

Lemma frame_stateInfo_then (p : Promise) : respects R (stateInfo_then p).
Proof. unfold stateInfo_then, log. frame_walk. Qed.

Lemma frame_after_loadTheme (p : Promise) : respects R (after_loadTheme p).
Proof.
  unfold after_loadTheme.
  apply (respects_bind R R_trans); [apply frame_initApp_catch|intros p2].
  apply frame_stateInfo_then.
Qed.

Lemma frame_after_createApp (p : Promise) : respects R (after_createApp p).
Proof.
  unfold after_createApp.
  apply (respects_bind R R_trans); [apply frame_initApp_then|intros p1].
  apply (respects_bind R R_trans); [apply frame_initApp_catch|intros p2].
  apply frame_stateInfo_then.
Qed.

Lemma frame_resume (i : nat) (c : M Promise) : respects R c -> respects R (resume i c).
Proof.
  intros Hc. unfold resume.
  apply (respects_bind R R_trans); [exact Hc|intros p].
  apply respects_modify. frame_update.
Qed.

Lemma frame_initApp : respects R initApp.
Proof.
  unfold initApp.
  apply (respects_bind R R_trans); [unfold log; frame_walk|intros _].
  apply (respects_bind R R_trans); [frame_walk|intros p0].
  apply (respects_bind R R_trans); [frame_walk|intros _].
  apply (respects_bind R R_trans);
    [unfold _createApp, _importHref, log; frame_walk|intros p1].
  apply (respects_bind R R_trans); [apply frame_initApp_then|intros p2].
  apply frame_initApp_catch.
Qed.

(** Every handler but the bootstrap handler. *)
Lemma frame_handle (ev : Event) :
  (forall info, ev <> window_state_info info) -> respects R (handle ev).
Proof.
  intros Hne. destruct ev; cbn [handle].
  - by destruct (Hne info).
  - unfold commandHandler, command_cases, sendTabsCount, activateTab, getRequestData,
      log, send. frame_walk.
  - unfold execRequestAction, request_action_cases, log. frame_walk.
  - unfold _themePreviewHandler. frame_walk.
  - unfold updateEventHandler, log. frame_walk.
  - unfold beforeUnloadWindow, send. frame_walk.
  - apply frame_resume, (respects_bind R R_trans);
      [unfold createApp_then_import, log; frame_walk | apply frame_after_createApp].
  - apply frame_resume, (respects_bind R R_trans);
      [unfold createApp_catch; frame_walk | apply frame_after_createApp].
  - apply frame_resume, (respects_bind R R_trans); [|apply frame_after_createApp].
    apply respects_attempt. unfold createApp_then_attach, _setupApp, log. frame_walk.
  - apply frame_resume, (respects_bind R R_trans);
      [unfold polymer_reject; frame_walk | apply frame_after_createApp].
  - apply frame_resume, frame_after_loadTheme.
  - apply frame_resume, frame_after_loadTheme.
Qed.

(** The bootstrap handler, when [R] also allows its writes of the config. *)
Lemma frame__stateInfoHandler (info : JsVal) :
  (forall w v, R w (set_workspaceIndex v w)) ->
  (forall w c, R w (set_initConfig c w)) ->
  (forall w c, R w (set_ArcConfig c w)) ->
  respects R (_stateInfoHandler info).
Proof.
  intros Hwi Hic Hac. unfold _stateInfoHandler.
  destruct (if falsy info then VObj ∅ else info);
    try (apply (respects_throw R R_refl)).
  apply (respects_bind R R_trans);
    [apply (respects_modify R); intros w; apply Hwi|intros _].
  apply (respects_bind R R_trans);
    [apply (respects_modify R); intros w; destruct (ArcConfig w); [apply R_refl|apply Hac]
    |intros _].
  apply (respects_bind R R_trans);
    [apply (respects_modify R); intros w; apply Hic|intros _].
  apply (respects_bind R R_trans);
    [apply (respects_modify R); intros w; apply Hac|intros _].
  apply (respects_bind R R_trans); [apply frame_initApp|intros p].
  apply (respects_bind R R_trans); [apply frame_stateInfo_then|intros p'].
  apply respects_modify. frame_update.
Qed.

End HandlerFrames.

(** ** The shape of what is sent *)

Lemma shaped_refl (w : World) : shaped w w.
Proof. apply extends_refl. Qed.

Lemma shaped_trans (w1 w2 w3 : World) : shaped w1 w2 -> shaped w2 w3 -> shaped w1 w3.
Proof. apply extends_trans. Qed.

Lemma is_bootstrap (ev : Event) :
  (exists info, ev = window_state_info info) \/
  (forall info, ev <> window_state_info info).
Proof. destruct ev; first [left; by eexists | right; discriminate]. Qed.

Lemma shaped_step (w : World) (ev : Event) : shaped w (step w ev).
Proof.
  unfold step. destruct (enabled w ev); [|apply shaped_refl].
  assert (Hsame : forall (w0 w1 : World), sent w1 = sent w0 -> shaped w0 w1).
  { intros w0 w1 Hs. unfold shaped. rewrite Hs. apply extends_refl. }
  assert (Hsend : forall (w0 : World) (m : Sent),
            well_formed m = true -> shaped w0 (set_sent (sent w0 ++ [m]) w0)).
  { intros w0 m Hm. by apply extends_snoc. }
  destruct (is_bootstrap ev) as [[info ->]|Hne].
  - apply (frame__stateInfoHandler shaped shaped_refl shaped_trans); intros;
      first [by apply Hsame | by apply Hsend].
  - apply (frame_handle shaped shaped_refl shaped_trans); intros;
      first [by apply Hsame | by apply Hsend | by apply Hne].
Qed.

Lemma well_formed_reply (m : Sent) :
  well_formed m = true -> port m = e_sender -> payload m !! 1 = Some (VBool false).
Proof.
  destruct m as [p ch pl]. cbn. intros Hwf ->. cbn in Hwf.
  destruct pl as [|a [|[| |[]| | |] [|c [|]]]]; try discriminate; reflexivity.
Qed.

(** X25.  After the opening request every message the bridge sends, in any
    run, has one of five forms: [fatal-error] with one entry or
    [window-reloading] with none, on [ipc]; [tab-activated] with the call
    identifier and [false], or [current-tabs-count] or [request-data] with the
    call identifier, [false] and a value, through the sender of the event.  A
    reply never carries an error flag other than [false]. *)
Theorem messages_are_well_formed (evs : list Event) :
  exists later,
    sent (run initScript evs) = mkSent ipc "window-state-request" [] :: later /\
    Forall (fun m => well_formed m = true) later /\
    forall m, m ∈ later -> port m = e_sender -> payload m !! 1 = Some (VBool false).
Proof.
  assert (H : shaped initScript (run initScript evs)).
  { apply (run_invariant (shaped initScript)); [|apply shaped_refl].
    intros w ev Hw. eapply shaped_trans; [exact Hw | apply shaped_step]. }
  destruct H as (later & Hs & Hl). exists later.
  split; [exact Hs|]. split; [exact Hl|].
  intros m Hin. apply well_formed_reply. rewrite Forall_forall in Hl. by apply Hl.
Qed.

(** ** Where the config is kept *)

Lemma config_kept_refl (w : World) : config_kept w w.
Proof. by repeat split. Qed.

Lemma config_kept_trans (w1 w2 w3 : World) :
  config_kept w1 w2 -> config_kept w2 w3 -> config_kept w1 w3.
Proof. intros (? & ? & ?) (? & ? & ?). repeat split; congruence. Qed.

Lemma config_kept_step (w : World) (ev : Event) :
  (forall info, ev <> window_state_info info) -> config_kept w (step w ev).
Proof.
  intros Hne. unfold step. destruct (enabled w ev); [|apply config_kept_refl].
  apply (frame_handle config_kept config_kept_refl config_kept_trans);
    try exact Hne; intros; by repeat split.
Qed.

Lemma default_workspaceIndex_prop (o : gmap string JsVal) :
  falsy (prop (default_workspaceIndex o) "workspaceIndex") = false \/
  prop (default_workspaceIndex o) "workspaceIndex" = VNum 0.
Proof.
  unfold default_workspaceIndex.
  destruct (falsy (prop o "workspaceIndex")) eqn:Hf; [right|by left].
  unfold prop. by rewrite lookup_insert_eq.
Qed.

Lemma config_coherent_step (w : World) (ev : Event) :
  config_coherent w -> config_coherent (step w ev).
Proof.
  intros Hw.
  destruct (is_bootstrap ev) as [[info ->]|Hne].
  - assert (Hobj : forall o w', bootstrapped o w w' -> config_coherent w').
    { intros o w' []. unfold config_coherent.
      rewrite boot_initConfig0, boot_ArcConfig0, boot_workspaceIndex0.
      split; [reflexivity|]. split; [reflexivity|]. apply default_workspaceIndex_prop. }
    unfold step. destruct (enabled w (window_state_info info)); [|exact Hw].
    unfold handle, exec. destruct (falsy info) eqn:Hf.
    + rewrite stateInfoHandler_falsy by assumption.
      destruct (stateInfoHandler_object w ∅) as (w' & -> & Hb). by apply (Hobj ∅).
    + destruct info as [| | | | |o];
        try (by rewrite stateInfoHandler_primitive by done).
      destruct (stateInfoHandler_object w o) as (w' & -> & Hb). by apply (Hobj o).
  - destruct (config_kept_step w ev Hne) as (Hwi & Hic & Hac).
    unfold config_coherent in *. by rewrite Hwi, Hic, Hac.
Qed.

(** X26.  In every state the script can reach, either no bootstrap has
    been handled and the bridge has no index, or [this.initConfig] and
    [window.ArcConfig.initConfig] are the same config, [this.workspaceIndex] is
    the [workspaceIndex] of that config, and that index is truthy or [0].  No
    event other than a bootstrap changes any of the three. *)
Theorem config_is_coherent (evs : list Event) :
  config_coherent (run initScript evs) /\
  forall ev, (forall info, ev <> window_state_info info) ->
    config_kept (run initScript evs) (step (run initScript evs) ev).
Proof.
  split.
  - apply (run_invariant config_coherent); [apply config_coherent_step | reflexivity].
  - intros ev. apply config_kept_step.
Qed.

(** X27.  From any state and through any events, the links in the head are
    kept in place and in order: what [_importHref] appended stays (its
    clean-up takes away the listeners, not the link), and whatever is added is
    an import link. *)
Theorem import_links_are_kept (w : World) (evs : list Event) :
  exists added,
    head (run w evs) = head w ++ added /\
    Forall (fun k => rel k = "import") added /\
    length (head w) <= length (head (run w evs)).
Proof.
  destruct (grows_head _ _ (grows_run w evs)) as (added & Hh & Ha).
  exists added. split; [exact Hh|]. split; [exact Ha|].
  rewrite Hh, length_app. lia.
Qed.
